(** * Stream manager service (scripts/start.py): a shallow embedding

    The Python module supervises one FFmpeg child process per configured
    stream.  This development embeds

    - the configuration model ([StreamType], [StreamConfig]),
    - the command builder ([FFmpegProcess._build_command]),
    - the process handle ([FFmpegProcess.start], [stop], [is_alive]),
    - the supervisor ([StreamManager.start_all_streams], the body of
      [monitor_streams], [cleanup] and [_signal_handler]),

    and proves properties of them.  Python integers are unbounded, so they
    are [Z]; their conversion to a string fails beyond the interpreter's
    limit on digits.  Strings are [string].  [str.upper] is embedded on ASCII
    strings, and a statement that depends on the upper-casing of a
    declaration's type says that the type is ASCII.  A Python [dict] is an
    association list in insertion order with unique keys.  The operating
    system (process creation, polling, signalling) is a parameter: a record
    of state-passing functions over an abstract world, each of which may
    return normally or raise.  *)

From Stdlib Require Import List String Ascii ZArith Lia Bool DecimalString.
Import ListNotations.
Local Open Scope string_scope.
Local Open Scope Z_scope.
Local Open Scope list_scope.

Set Implicit Arguments.

(** ** Exceptions and results *)

(** The subclasses of Python's [Exception] that the module meets.  All of
    them are caught by [except Exception].  Of a [TypeError] the message is
    left out. *)
Inductive exn : Type :=
| KeyError (key : string)
| ValueError (msg : string)
| OSError (msg : string)
| TimeoutExpired
| TypeError.

Inductive result (A : Type) : Type :=
| Ok (a : A)
| Raise (e : exn).
Arguments Ok {A} a.
Arguments Raise {A} e.

Definition is_TimeoutExpired (e : exn) : bool :=
  match e with TimeoutExpired => true | _ => false end.

(** ** Configuration model *)

(** [class StreamType(Enum)] *)
Inductive StreamType : Type := FILE | RTSP | RTMP | HLS | UDP.

(** The member's name, as [StreamType[...]] looks it up. *)
Definition StreamType_name (t : StreamType) : string :=
  match t with
  | FILE => "FILE" | RTSP => "RTSP" | RTMP => "RTMP"
  | HLS => "HLS" | UDP => "UDP"
  end.

(** [str(t)] for an enum member: ["StreamType.FILE"] and so on. *)
Definition StreamType_str (t : StreamType) : string :=
  ("StreamType." ++ StreamType_name t)%string.

(** [StreamType[s]]: lookup of a member by name, [KeyError] otherwise. *)
Definition StreamType_getitem (s : string) : result StreamType :=
  if String.eqb s "FILE" then Ok FILE
  else if String.eqb s "RTSP" then Ok RTSP
  else if String.eqb s "RTMP" then Ok RTMP
  else if String.eqb s "HLS" then Ok HLS
  else if String.eqb s "UDP" then Ok UDP
  else Raise (KeyError s).

(** A YAML scalar, as an option key or value.  Floating-point values are
    left out. *)
Inductive scalar : Type :=
| SStr (s : string)
| SInt (z : Z)
| SBool (b : bool)
| SNull.

(** CPython's default limit on the number of digits of an integer that is
    converted to a decimal string ([sys.int_max_str_digits]). *)
Definition int_max_str_digits : Z := 4300.

(** The [ValueError] of a conversion beyond that limit. *)
Definition int_too_long : exn :=
  ValueError
    "Exceeds the limit (4300 digits) for integer string conversion; use sys.set_int_max_str_digits() to increase the limit".

(** The number of decimal digits of an integer, its sign apart. *)
Definition int_digits (z : Z) : Z :=
  Z.of_nat (String.length (NilZero.string_of_uint (N.to_uint (Z.abs_N z)))).

(** Python's [str(value)] on these scalars, which is also what an f-string
    does with them.  On an integer of more than [int_max_str_digits] digits
    it raises. *)
Definition str (v : scalar) : result string :=
  match v with
  | SStr s => Ok s
  | SInt z =>
      if int_digits z <=? int_max_str_digits
      then Ok (NilZero.string_of_int (Z.to_int z))
      else Raise int_too_long
  | SBool true => Ok "True"
  | SBool false => Ok "False"
  | SNull => Ok "None"
  end.

(** [@dataclass class StreamConfig] *)
Record StreamConfig : Type := mkStreamConfig {
  name : string;
  type : StreamType;
  input : string;
  output_path : string;
  options : option (list (scalar * scalar))
}.

(** ** Command builder *)

(** The [for key, value in self.config.options.items()] loop: the
    arguments [f"-{key}"] and [str(value)] it appends, entry by entry, or the
    exception of the first conversion that fails. *)
Fixpoint option_pairs (kvs : list (scalar * scalar)) : result (list string) :=
  match kvs with
  | [] => Ok []
  | (key, value) :: rest =>
      match str key with
      | Raise e => Raise e
      | Ok k =>
          match str value with
          | Raise e => Raise e
          | Ok v =>
              match option_pairs rest with
              | Raise e => Raise e
              | Ok args => Ok (("-" ++ k)%string :: v :: args)
              end
          end
      end
  end.

(** The arguments added for the options.  [if self.config.options:] skips
    both [None] and the empty mapping. *)
Definition option_args (opts : option (list (scalar * scalar)))
  : result (list string) :=
  match opts with
  | None => Ok []
  | Some [] => Ok []
  | Some kvs => option_pairs kvs
  end.

(** The branch on [self.config.type]: what is appended to [base_command],
    or the [ValueError] of the final [else]. *)
Definition type_args (c : StreamConfig) : result (list string) :=
  match type c with
  | FILE =>
      Ok [ "-stream_loop"; "-1";
           "-i"; input c;
           "-c:v"; "libx264";
           "-preset"; "veryfast";
           "-c:a"; "aac";
           "-b:v"; "2M";
           "-bufsize"; "4M";
           "-maxrate"; "2.5M";
           "-g"; "50";
           "-keyint_min"; "25" ]
  | RTSP =>
      Ok [ "-rtsp_transport"; "tcp";
           "-i"; input c;
           "-c"; "copy";
           "-f"; "rtsp";
           "-rtsp_transport"; "tcp" ]
  | RTMP =>
      Ok [ "-i"; input c;
           "-c"; "copy" ]
  | HLS | UDP =>
      Raise (ValueError ("Unsupported stream type: " ++ StreamType_str (type c))%string)
  end.

(** The output sink: [-f rtsp <rtsp_server>/<output_path>]. *)
Definition output_args (rtsp_server : string) (c : StreamConfig) : list string :=
  [ "-f"; "rtsp"; (rtsp_server ++ "/" ++ output_path c)%string ].

(** [FFmpegProcess._build_command], on the two fields of [self] it reads. *)
Definition _build_command (rtsp_server : string) (c : StreamConfig)
  : result (list string) :=
  let base_command := ["ffmpeg"; "-re"] in
  match type_args c with
  | Raise e => Raise e
  | Ok template =>
      let base_command := base_command ++ template in
      match option_args (options c) with
      | Raise e => Raise e
      | Ok pairs =>
          let base_command := base_command ++ pairs in
          let base_command := base_command ++ output_args rtsp_server c in
          Ok base_command
      end
  end.

(** The source types the builder has a template for. *)
Definition supported (t : StreamType) : bool :=
  match t with FILE | RTSP | RTMP => true | HLS | UDP => false end.

(** The error of the spec's [UnsupportedSourceType]: the [ValueError] the
    builder raises. *)
Definition UnsupportedSourceType (t : StreamType) : exn :=
  ValueError ("Unsupported stream type: " ++ StreamType_str t)%string.

(** The transcode part of the [file] template, after the input. *)
Definition transcode_args : list string :=
  [ "-c:v"; "libx264"; "-preset"; "veryfast"; "-c:a"; "aac";
    "-b:v"; "2M"; "-bufsize"; "4M"; "-maxrate"; "2.5M";
    "-g"; "50"; "-keyint_min"; "25" ].

(** [strs] are the string forms of the keys and values of the mapping
    [kvs], entry by entry in the mapping's order: every conversion
    succeeds. *)
Definition rendered (kvs : list (scalar * scalar))
  (strs : list (string * string)) : Prop :=
  Forall2 (fun kv ss => str (fst kv) = Ok (fst ss) /\ str (snd kv) = Ok (snd ss))
    kvs strs.

(** The [-<key> <value>] pairs for such string forms, one pair per entry,
    in order. *)
Definition pair_args (strs : list (string * string)) : list string :=
  flat_map (fun ss => [("-" ++ fst ss)%string; snd ss]) strs.

(** An integer of 4301 digits. *)
Definition huge : Z := 10 ^ 4300.

Definition options_items (opts : option (list (scalar * scalar)))
  : list (scalar * scalar) :=
  match opts with None => [] | Some kvs => kvs end.

(** ** Processes, the operating system and the log *)

(** A [subprocess.Popen] object, identified by its process id. *)
Record Popen : Type := mkPopen { pid : Z }.

(** What the module asks of the outside world.  Every call takes the world
    and gives the next one; a call that can fail returns a [result].
    [os_poll] gives [None] while the process runs and its return code once
    it has exited; [os_wait] raises [TimeoutExpired] when the process does
    not exit within the timeout. *)
Record OS : Type := mkOS {
  World : Type;
  os_Popen : list string -> World -> result Popen * World;
  os_poll : Popen -> World -> option Z * World;
  os_terminate : Popen -> World -> result unit * World;
  os_wait : Popen -> Z -> World -> result Z * World;
  os_kill : Popen -> World -> result unit * World;
  os_sleep : Z -> World -> World
}.

Inductive level : Type := DEBUG | INFO | WARNING | ERROR.

(** One constructor per logging call of the module, with the values its
    format string interpolates. *)
Inductive message : Type :=
| Starting_stream (stream : string)
| Command (line : string)
| Failed_to_start_stream (stream : string) (e : exn)
| Stopping_stream (stream : string)
| Stream_has_died (stream : string)
| Failed_too_many_times (stream : string)
| Received_signal (signum : Z)
| Cleaning_up_streams.

(** What a run leaves behind: the records handed to the logger, and, as
    instrumentation, every entry into [start] and [stop] with the name of
    the handle's stream. *)
Inductive event : Type :=
| Log (lvl : level) (msg : message)
| Call_start (stream : string)
| Call_stop (stream : string).

(** ** A monad for the module's code

    A computation takes a state and gives a result, the next state and the
    events it emitted.  As in Python, the state reached when an exception is
    raised is kept: mutations made before the raise stay. *)
Definition M (S A : Type) : Type := S -> result A * S * list event.

Definition ret {S A : Type} (a : A) : M S A :=
  fun s => (Ok a, s, []).

Definition raise {S A : Type} (e : exn) : M S A :=
  fun s => (Raise e, s, []).

Definition bind {S A B : Type} (m : M S A) (k : A -> M S B) : M S B :=
  fun s =>
    match m s with
    | (Ok a, s1, ev1) =>
        match k a s1 with
        | (r, s2, ev2) => (r, s2, ev1 ++ ev2)
        end
    | (Raise e, s1, ev1) => (Raise e, s1, ev1)
    end.

Notation "x <- m ;; k" := (bind m (fun x => k))
  (at level 61, m at next level, right associativity).
Notation "m ;;; k" := (bind m (fun _ => k))
  (at level 61, right associativity).

(** [try: m except <class> as e: handler e], for the classes selected by
    [catches]. *)
Definition try_except {S A : Type} (catches : exn -> bool)
  (m : M S A) (handler : exn -> M S A) : M S A :=
  fun s =>
    match m s with
    | (Ok a, s1, ev1) => (Ok a, s1, ev1)
    | (Raise e, s1, ev1) =>
        if catches e then
          match handler e s1 with
          | (r, s2, ev2) => (r, s2, ev1 ++ ev2)
          end
        else (Raise e, s1, ev1)
    end.

(** [except Exception]: every member of [exn]. *)
Definition Exception (e : exn) : bool := true.

Definition emit {S : Type} (e : event) : M S unit :=
  fun s => (Ok tt, s, [e]).

Definition of_result {S A : Type} (r : result A) : M S A :=
  fun s => (r, s, []).

(** [for x in l: body x] *)
Fixpoint for_each {S A : Type} (l : list A) (body : A -> M S unit) : M S unit :=
  match l with
  | [] => ret tt
  | x :: rest => body x ;;; for_each rest body
  end.

(** ** Dictionaries *)

Definition dict (V : Type) : Type := list (string * V).

(** [d.get(key)] *)
Fixpoint dict_get {V : Type} (d : dict V) (key : string) : option V :=
  match d with
  | [] => None
  | (k, v) :: rest => if String.eqb k key then Some v else dict_get rest key
  end.

(** [d[key] = v]: an existing key keeps its place, a new one goes last. *)
Fixpoint dict_set {V : Type} (d : dict V) (key : string) (v : V) : dict V :=
  match d with
  | [] => [(key, v)]
  | (k, v0) :: rest =>
      if String.eqb k key then (k, v) :: rest
      else (k, v0) :: dict_set rest key v
  end.

Definition keys {V : Type} (d : dict V) : list string := map fst d.

(** ** The process handle *)

Record FFmpegProcess : Type := mkFFmpegProcess {
  config : StreamConfig;
  rtsp_server : string;
  process : option Popen;
  last_restart : Z;
  max_restarts : Z;
  restart_count : Z;
  restart_interval : Z
}.

(** [FFmpegProcess.__init__] *)
Definition FFmpegProcess_init (cfg : StreamConfig) (server : string)
  : FFmpegProcess :=
  {| config := cfg;
     rtsp_server := server;
     process := None;
     last_restart := 0;
     max_restarts := 5;
     restart_count := 0;
     restart_interval := 60 |}.

Definition with_process (p : option Popen) (h : FFmpegProcess) : FFmpegProcess :=
  {| config := config h;
     rtsp_server := rtsp_server h;
     process := p;
     last_restart := last_restart h;
     max_restarts := max_restarts h;
     restart_count := restart_count h;
     restart_interval := restart_interval h |}.

Definition with_restart_count (n : Z) (h : FFmpegProcess) : FFmpegProcess :=
  {| config := config h;
     rtsp_server := rtsp_server h;
     process := process h;
     last_restart := last_restart h;
     max_restarts := max_restarts h;
     restart_count := n;
     restart_interval := restart_interval h |}.

(** An entry of [config['streams']] as the YAML loader gives it: a mapping
    in which each of the keys the module reads is present or not.  The
    values are strings ([options]: a mapping of scalars), as the format of
    the configuration file has them. *)
Record RawStream : Type := mkRawStream {
  raw_name : option string;
  raw_type : option string;
  raw_input : option string;
  raw_output_path : option string;
  raw_options : option (list (scalar * scalar))
}.

(** [stream_config[key]]: the value, or [KeyError(key)]. *)
Definition getitem {A : Type} (key : string) (field : option A) : result A :=
  match field with
  | Some v => Ok v
  | None => Raise (KeyError key)
  end.

(** [str.upper] on ASCII strings: on a string of ASCII characters only,
    Python's [str.upper] is this function.  Python's function also maps
    characters beyond ASCII; what is stated below of the upper-casing of a
    [type] is stated of types that are ASCII. *)
Definition ascii_upper (c : ascii) : ascii :=
  let n := nat_of_ascii c in
  if (97 <=? n)%nat && (n <=? 122)%nat then ascii_of_nat (n - 32) else c.

Fixpoint upper (s : string) : string :=
  match s with
  | EmptyString => EmptyString
  | String c rest => String (ascii_upper c) (upper rest)
  end.

(** The string has ASCII characters only. *)
Fixpoint ascii_only (s : string) : bool :=
  match s with
  | EmptyString => true
  | String c rest => (nat_of_ascii c <? 128)%nat && ascii_only rest
  end.

(** The [type] of the declaration, if it has one, is ASCII. *)
Definition ascii_typed (stream_config : RawStream) : bool :=
  match raw_type stream_config with
  | Some ty => ascii_only ty
  | None => true
  end.

(** How control leaves [_signal_handler]: by the [SystemExit] of
    [sys.exit], or by an exception that [cleanup] let through. *)
Inductive termination : Type :=
| SystemExit (code : Z)
| Uncaught (e : exn).

Section Service.

Variable os : OS.

(** The state a method of a handle works on: [self] and the world. *)
Definition HState : Type := FFmpegProcess * World os.

(** The state a method of the manager works on: [self.streams] and the
    world.  ([self.rtsp_server] and [self.config] are never assigned after
    [__init__]; they are arguments.) *)
Definition MState : Type := dict FFmpegProcess * World os.

Definition get_self : M HState FFmpegProcess :=
  fun s => (Ok (fst s), s, []).

Definition set_self (f : FFmpegProcess -> FFmpegProcess) : M HState unit :=
  fun s => (Ok tt, (f (fst s), snd s), []).

(** A call into the operating system, from a method of a handle. *)
Definition os_call {A : Type} (f : World os -> result A * World os) : M HState A :=
  fun s => match f (snd s) with (r, w) => (r, (fst s, w), []) end.

(** [FFmpegProcess.start] *)
Definition start : M HState bool :=
  self <- get_self ;;
  emit (Call_start (name (config self))) ;;;
  try_except Exception
    (command <- of_result (_build_command (rtsp_server self) (config self)) ;;
     emit (Log INFO (Starting_stream (name (config self)))) ;;;
     emit (Log DEBUG (Command (String.concat " " command))) ;;;
     p <- os_call (os_Popen os command) ;;
     set_self (with_process (Some p)) ;;;
     ret true)
    (fun e =>
     emit (Log ERROR (Failed_to_start_stream (name (config self)) e)) ;;;
     ret false).

(** [FFmpegProcess.stop] *)
Definition stop : M HState unit :=
  self <- get_self ;;
  emit (Call_stop (name (config self))) ;;;
  match process self with
  | Some p =>
      emit (Log INFO (Stopping_stream (name (config self)))) ;;;
      os_call (os_terminate os p) ;;;
      try_except is_TimeoutExpired
        (_ <- os_call (os_wait os p 5) ;; ret tt)
        (fun _ => os_call (os_kill os p)) ;;;
      set_self (with_process None)
  | None => ret tt
  end.

(** [FFmpegProcess.is_alive] *)
Definition is_alive : M HState bool :=
  self <- get_self ;;
  match process self with
  | Some p =>
      returncode <- os_call (fun w => match os_poll os p w with
                                      | (rc, w') => (Ok rc, w')
                                      end) ;;
      ret (match returncode with None => true | Some _ => false end)
  | None => ret false
  end.

(** A method call on a handle that is a local variable of a method of the
    manager.  If the call raises, the local handle is lost with the frame. *)
Definition on_local {A : Type} (h : FFmpegProcess) (m : M HState A)
  : M MState (A * FFmpegProcess) :=
  fun s =>
    match m (h, snd s) with
    | (Ok a, (h', w), ev) => (Ok (a, h'), (fst s, w), ev)
    | (Raise e, (_, w), ev) => (Raise e, (fst s, w), ev)
    end.

(** [for name, process in items: body name process], the handles being
    objects that [body] mutates in place.  An exception leaves the loop;
    the handles visited so far keep their mutations. *)
Fixpoint for_items (body : string -> M HState unit)
  (items : dict FFmpegProcess) (w : World os)
  : result unit * MState * list event :=
  match items with
  | [] => (Ok tt, ([], w), [])
  | (k, h) :: rest =>
      match body k (h, w) with
      | (Ok _, (h', w1), ev1) =>
          match for_items body rest w1 with
          | (r, (rest', w2), ev2) => (r, ((k, h') :: rest', w2), ev1 ++ ev2)
          end
      | (Raise e, (h', w1), ev1) => (Raise e, ((k, h') :: rest, w1), ev1)
      end
  end.

Definition for_streams (body : string -> M HState unit) : M MState unit :=
  fun s => for_items body (fst s) (snd s).

(** [self.streams[key] = h] *)
Definition streams_setitem (key : string) (h : FFmpegProcess) : M MState unit :=
  fun s => (Ok tt, (dict_set (fst s) key h, snd s), []).

(** The constructor call [StreamConfig(name=..., type=..., ...)] of
    [start_all_streams]; the keyword arguments are evaluated in order. *)
Definition parse_stream (stream_config : RawStream) : result StreamConfig :=
  match getitem "name" (raw_name stream_config) with
  | Raise e => Raise e
  | Ok nm =>
  match getitem "type" (raw_type stream_config) with
  | Raise e => Raise e
  | Ok ty =>
  match StreamType_getitem (upper ty) with
  | Raise e => Raise e
  | Ok t =>
  match getitem "input" (raw_input stream_config) with
  | Raise e => Raise e
  | Ok inp =>
  match getitem "output_path" (raw_output_path stream_config) with
  | Raise e => Raise e
  | Ok out =>
      Ok (mkStreamConfig nm t inp out (raw_options stream_config))
  end end end end end.

(** The body of the loop of [start_all_streams], for one entry. *)
Definition start_stream (server : string) (stream_config : RawStream)
  : M MState unit :=
  try_except Exception
    (stream <- of_result (parse_stream stream_config) ;;
     r <- on_local (FFmpegProcess_init stream server) start ;;
     if fst r then streams_setitem (name stream) (snd r) else ret tt)
    (fun e =>
     nm <- of_result (getitem "name" (raw_name stream_config)) ;;
     emit (Log ERROR (Failed_to_start_stream nm e))).

(** [StreamManager.start_all_streams] *)
Definition start_all_streams (server : string) (streams_config : list RawStream)
  : M MState unit :=
  for_each streams_config (start_stream server).

(** The body of the [for] loop of [monitor_streams], for one stream. *)
Definition monitor_stream (stream : string) : M HState unit :=
  alive <- is_alive ;;
  if negb alive then
    emit (Log WARNING (Stream_has_died stream)) ;;;
    self <- get_self ;;
    if restart_count self <? max_restarts self then
      set_self (with_restart_count (restart_count self + 1)) ;;;
      _ <- start ;;
      ret tt
    else
      emit (Log ERROR (Failed_too_many_times stream))
  else ret tt.

(** One pass of the [while True] loop of [monitor_streams], without the
    sleep: the [for] loop over [self.streams.items()]. *)
Definition monitor_tick : M MState unit :=
  for_streams monitor_stream.

Definition sleep (seconds : Z) : M MState unit :=
  fun s => (Ok tt, (fst s, os_sleep os seconds (snd s)), []).

(** [StreamManager.monitor_streams], cut after [n] passes of its endless
    loop. *)
Fixpoint monitor_streams (n : nat) : M MState unit :=
  match n with
  | O => ret tt
  | S n' => monitor_tick ;;; sleep 5 ;;; monitor_streams n'
  end.

(** [StreamManager.cleanup] *)
Definition cleanup : M MState unit :=
  emit (Log INFO Cleaning_up_streams) ;;;
  for_streams (fun _ => stop).

(** [StreamManager._signal_handler]: [sys.exit(0)] is reached when
    [cleanup] returns. *)
Definition _signal_handler (signum : Z) (s : MState)
  : termination * MState * list event :=
  match (emit (Log INFO (Received_signal signum)) ;;; cleanup) s with
  | (Ok _, s', ev) => (SystemExit 0, s', ev)
  | (Raise e, s', ev) => (Uncaught e, s', ev)
  end.

End Service.

Arguments get_self {os}.
Arguments set_self {os} f.
Arguments os_call {os A} f.
Arguments on_local {os A} h m.
Arguments for_items {os} body items w.
Arguments for_streams {os} body.
Arguments streams_setitem {os} key h.

(** ** Predicates of the statements *)

(** A declaration with the four required keys and a source type the
    builder has a template for. *)
Definition well_formed (stream_config : RawStream) : bool :=
  match raw_name stream_config, raw_type stream_config,
        raw_input stream_config, raw_output_path stream_config with
  | Some _, Some ty, Some _, Some _ =>
      match StreamType_getitem (upper ty) with
      | Ok t => supported t
      | Raise _ => false
      end
  | _, _, _, _ => false
  end.

(** A handle holds a process reference. *)
Definition has_process (h : FFmpegProcess) : bool :=
  match process h with Some _ => true | None => false end.

(** The counter of a handle is within its bound. *)
Definition within_bound (h : FFmpegProcess) : Prop :=
  restart_count h <= max_restarts h.

(** The handle of a tracked stream is filed under its stream's name. *)
Definition filed_by_name (kh : string * FFmpegProcess) : Prop :=
  name (config (snd kh)) = fst kh.

(** The tracking map as [start_all_streams] builds it: unique keys, every
    handle filed under its own name, every counter within its bound. *)
Definition tracking (streams : dict FFmpegProcess) : Prop :=
  NoDup (keys streams) /\
  Forall filed_by_name streams /\
  Forall (fun kh => within_bound (snd kh)) streams.

(** The handle [start_all_streams] registers for a declaration: a fresh
    handle whose [start] has recorded a process. *)
Definition registered_for (server : string) (streams_config : list RawStream)
  (kh : string * FFmpegProcess) : Prop :=
  exists stream_config cfg p,
    In stream_config streams_config /\
    well_formed stream_config = true /\
    parse_stream stream_config = Ok cfg /\
    name cfg = fst kh /\
    snd kh = with_process (Some p) (FFmpegProcess_init cfg server).

(** What one pass of the monitoring loop may do to one handle, from [h] to
    [h'], and what it may emit: the configuration and the bound stay, the
    counter does not decrease and stays within the bound, a handle at its
    bound is left alone, and every [start] is the handle's own. *)
Definition pass_effect (k : string) (h h' : FFmpegProcess) (ev : list event)
  : Prop :=
  config h' = config h /\
  max_restarts h' = max_restarts h /\
  restart_count h <= restart_count h' /\
  (within_bound h -> within_bound h') /\
  (max_restarts h <= restart_count h ->
   h' = h /\ forall n, ~ In (Call_start n) ev) /\
  (forall n, In (Call_start n) ev -> n = name (config h)).

(** How the entry of a stream may differ after any number of passes: the
    same key, configuration and bound, a counter that has not decreased and
    is still within the bound, and the very same handle if it was at its
    bound. *)
Definition advance (kh kh' : string * FFmpegProcess) : Prop :=
  fst kh' = fst kh /\
  config (snd kh') = config (snd kh) /\
  max_restarts (snd kh') = max_restarts (snd kh) /\
  restart_count (snd kh) <= restart_count (snd kh') /\
  (within_bound (snd kh) -> within_bound (snd kh')) /\
  (max_restarts (snd kh) <= restart_count (snd kh) -> snd kh' = snd kh).

(** What the loop of [start_all_streams] keeps true of the tracking map:
    it is a tracking map all of whose handles were registered for
    declarations of the list. *)
Definition started_map (server : string) (streams_config : list RawStream)
  (streams : dict FFmpegProcess) : Prop :=
  tracking streams /\ Forall (registered_for server streams_config) streams.

Definition is_Call_stop (e : event) : bool :=
  match e with Call_stop _ => true | _ => false end.

(** ** A scripted operating system, for concrete runs

    The world is a script: for each kind of call, the outcomes of the calls
    still to come.  A call takes the head of its list; when the list is
    used up, spawning fails, a polled process has exited, and signalling
    and waiting succeed. *)
Record Script : Type := mkScript {
  Popen_outcomes : list (result Popen);
  poll_outcomes : list (option Z);
  terminate_outcomes : list (result unit);
  wait_outcomes : list (result Z);
  kill_outcomes : list (result unit)
}.

Definition scripted_Popen (_ : list string) (w : Script) : result Popen * Script :=
  match Popen_outcomes w with
  | [] => (Raise (OSError "No such file or directory: ffmpeg"), w)
  | r :: rest =>
      (r, mkScript rest (poll_outcomes w) (terminate_outcomes w)
            (wait_outcomes w) (kill_outcomes w))
  end.

Definition scripted_poll (_ : Popen) (w : Script) : option Z * Script :=
  match poll_outcomes w with
  | [] => (Some 0, w)
  | r :: rest =>
      (r, mkScript (Popen_outcomes w) rest (terminate_outcomes w)
            (wait_outcomes w) (kill_outcomes w))
  end.

Definition scripted_terminate (_ : Popen) (w : Script) : result unit * Script :=
  match terminate_outcomes w with
  | [] => (Ok tt, w)
  | r :: rest =>
      (r, mkScript (Popen_outcomes w) (poll_outcomes w) rest
            (wait_outcomes w) (kill_outcomes w))
  end.

Definition scripted_wait (_ : Popen) (_ : Z) (w : Script) : result Z * Script :=
  match wait_outcomes w with
  | [] => (Ok 0, w)
  | r :: rest =>
      (r, mkScript (Popen_outcomes w) (poll_outcomes w) (terminate_outcomes w)
            rest (kill_outcomes w))
  end.

Definition scripted_kill (_ : Popen) (w : Script) : result unit * Script :=
  match kill_outcomes w with
  | [] => (Ok tt, w)
  | r :: rest =>
      (r, mkScript (Popen_outcomes w) (poll_outcomes w) (terminate_outcomes w)
            (wait_outcomes w) rest)
  end.

Definition scripted : OS :=
  {| World := Script;
     os_Popen := scripted_Popen;
     os_poll := scripted_poll;
     os_terminate := scripted_terminate;
     os_wait := scripted_wait;
     os_kill := scripted_kill;
     os_sleep := fun _ w => w |}.

(** The world in which every list is used up. *)
Definition quiet : Script := mkScript [] [] [] [] [].

(** The declaration of the scenario: a looped file published as
    [cam1/stream]. *)
Definition cam1_raw : RawStream :=
  mkRawStream (Some "cam1") (Some "file") (Some "/media/loop.mp4")
    (Some "cam1/stream") None.

Definition cam1 : StreamConfig :=
  mkStreamConfig "cam1" FILE "/media/loop.mp4" "cam1/stream" None.

Definition cam2 : StreamConfig :=
  mkStreamConfig "cam2" RTSP "rtsp://10.0.0.7/live" "cam2/stream"
    (Some [(SStr "an", SInt 1)]).

Definition cam3 : StreamConfig :=
  mkStreamConfig "cam3" RTMP "rtmp://10.0.0.8/live" "cam3/stream" None.

Definition mediamtx : string := "rtsp://mediamtx:8554".

(** A handle for [cfg] that holds the process [n]. *)
Definition running (cfg : StreamConfig) (n : Z) : FFmpegProcess :=
  with_process (Some (mkPopen n)) (FFmpegProcess_init cfg mediamtx).

(** A world whose next process ignores [terminate] for the whole grace
    period. *)
Definition stubborn : Script :=
  mkScript [] [] [] [Raise TimeoutExpired] [].

(** A world in which the next [terminate] is refused. *)
Definition refusing : Script :=
  mkScript [] [] [Raise (OSError "Operation not permitted")] [] [].

(** A world in which the next [wait] fails, and not by the timeout. *)
Definition wait_failing : Script :=
  mkScript [] [] [] [Raise (OSError "Interrupted system call")] [].

(** A world whose next process ignores [terminate] and whose [kill] is
    refused. *)
Definition kill_failing : Script :=
  mkScript [] [] [] [Raise TimeoutExpired]
    [Raise (OSError "Operation not permitted")].

(** A world in which the next spawn succeeds, with process [n]. *)
Definition spawning (n : Z) : Script :=
  mkScript [Ok (mkPopen n)] [] [] [] [].

(** Three tracked streams, all holding a process. *)
Definition three_streams : dict FFmpegProcess :=
  [("cam1", running cam1 1); ("cam2", running cam2 2); ("cam3", running cam3 3)].

(** A world in which the next poll finds the process running. *)
Definition alive_once : Script :=
  mkScript [] [None] [] [] [].

(** Two tracked streams, the first with its restarts used up. *)
Definition one_exhausted : dict FFmpegProcess :=
  [("cam1", with_restart_count 5 (running cam1 1)); ("cam2", running cam2 2)].

(** An operating system in which stopping a process cannot fail other than
    by the timeout of the wait: [terminate] and [kill] return, and [wait]
    returns or raises [TimeoutExpired]. *)
Definition only_timeouts (os : OS) : Prop :=
  (forall p w, fst (os_terminate os p w) = Ok tt) /\
  (forall p w, fst (os_kill os p w) = Ok tt) /\
  (forall p t w,
     (exists rc, fst (os_wait os p t w) = Ok rc) \/
     fst (os_wait os p t w) = Raise TimeoutExpired).

(** Such an operating system: the world lists, for the waits to come,
    whether the process exits in time. *)
Definition patient : OS :=
  {| World := list bool;
     os_Popen := fun _ w => (Raise (OSError "No such file or directory: ffmpeg"), w);
     os_poll := fun _ w => (Some 0, w);
     os_terminate := fun _ w => (Ok tt, w);
     os_wait := fun _ _ w =>
       match w with
       | [] => (Ok 0, [])
       | true :: rest => (Ok 0, rest)
       | false :: rest => (Raise TimeoutExpired, rest)
       end;
     os_kill := fun _ w => (Ok tt, w);
     os_sleep := fun _ w => w |}.

(** A declaration without a name. *)
Definition nameless_raw : RawStream :=
  mkRawStream None (Some "file") (Some "/media/loop.mp4") (Some "x/stream") None.

(** ** Loading the configuration and the entry point *)

(** What the [for] loop of [start_all_streams] gets from the value under
    [streams]: a mapping, read as a declaration, or something else (a
    scalar, a sequence, a character of a string, a key of a mapping). *)
Inductive entry : Type :=
| Declaration (stream_config : RawStream)
| NotAMapping.

(** The value under the key [streams]: something that can be iterated (a
    sequence, whose elements are the entries; a string, that is its
    characters; a mapping, that is its keys), or something that cannot
    ([None], a number, a boolean). *)
Inductive streams_value : Type :=
| Iterable (entries : list entry)
| NotIterable.

(** What [yaml.safe_load] gives for the configuration file: a mapping, with
    or without the key [streams], or something that is not a mapping (a
    scalar, a sequence, [None] for an empty file).  Of a mapping only the
    key [streams] is ever read. *)
Inductive document : Type :=
| Mapping (streams : option streams_value)
| NotMapping.

(** The host of the service: the operating system of the handles, the
    reading of a YAML file ([open] and [yaml.safe_load] together), and the
    environment variables. *)
Record Host : Type := mkHost {
  host_os : OS;
  host_load_yaml : string -> World host_os -> result document * World host_os;
  host_getenv : string -> World host_os -> option string
}.

(** What [_load_config] comes to: the configuration, or [sys.exit]. *)
Inductive loaded : Type :=
| Loaded (streams : streams_value)
| Exit (code : Z).

(** The events of the entry point: those of the manager's methods, the two
    error records of [_load_config] and [main], and the installation of a
    signal handler. *)
Inductive main_event : Type :=
| Manager_event (e : event)
| Failed_to_load_config_file (e : exn)
| Signal_handler_installed (signum : Z)
| Fatal_error (e : exn).

(** How [main] stands after a number of passes of the monitoring loop: it
    has left by [sys.exit], or it is still in the loop. *)
Inductive main_outcome : Type :=
| Exited (code : Z)
| Monitoring.

Definition SIGTERM : Z := 15.
Definition SIGINT : Z := 2.

(** [os.getenv(key, default)] *)
Definition getenv (host : Host) (key default : string) (w : World (host_os host))
  : string :=
  match host_getenv host key w with
  | Some v => v
  | None => default
  end.

(** [StreamManager._load_config]: [except Exception] turns every failure,
    the [ValueError] of the validation included, into an error record and
    [sys.exit(1)]. *)
Definition _load_config (host : Host) (config_path : string)
  (w : World (host_os host))
  : loaded * World (host_os host) * list main_event :=
  match host_load_yaml host config_path w with
  | (Ok (Mapping (Some streams)), w') => (Loaded streams, w', [])
  | (Ok (Mapping None), w') | (Ok NotMapping, w') =>
      (Exit 1, w',
       [Failed_to_load_config_file (ValueError "Invalid configuration format")])
  | (Raise e, w') => (Exit 1, w', [Failed_to_load_config_file e])
  end.

(** [StreamManager._setup_signal_handlers] *)
Definition _setup_signal_handlers : list main_event :=
  [Signal_handler_installed SIGTERM; Signal_handler_installed SIGINT].

(** [StreamManager.start_all_streams] on whatever the key [streams]
    holds.  A value that cannot be iterated makes the [for] statement raise
    [TypeError].  On an entry that is not a mapping, [stream_config['name']]
    raises [TypeError] in the [try] block and again in its handler, so the
    exception leaves the loop.  On a sequence of declarations this is
    [start_all_streams]. *)
Definition start_all_streams_any (os : OS) (server : string)
  (streams : streams_value) : M (MState os) unit :=
  match streams with
  | NotIterable => raise TypeError
  | Iterable entries =>
      for_each entries
        (fun e =>
           match e with
           | Declaration stream_config => start_stream server stream_config
           | NotAMapping => raise TypeError
           end)
  end.

(** [main], followed for [n] passes of the monitoring loop, while no signal
    arrives.  [StreamManager.__init__] is inlined: an empty tracking map, the
    configuration, the signal handlers.  The [SystemExit] of [_load_config]
    is no [Exception]: it passes the handler of [main]. *)
Definition main (host : Host) (n : nat) (w : World (host_os host))
  : main_outcome * MState (host_os host) * list main_event :=
  let RTSP_SERVER := getenv host "RTSP_SERVER" "rtsp://mediamtx:8554" w in
  let CONFIG_PATH := getenv host "CONFIG_PATH" "/config/streams.yml" w in
  match _load_config host CONFIG_PATH w with
  | (Exit code, w1, ev0) => (Exited code, ([], w1), ev0)
  | (Loaded streams, w1, ev0) =>
      let ev0 := ev0 ++ _setup_signal_handlers in
      match (start_all_streams_any RTSP_SERVER streams ;;;
             monitor_streams n) ([], w1) with
      | (Ok _, s, ev) => (Monitoring, s, ev0 ++ map Manager_event ev)
      | (Raise e, s, ev) =>
          (Exited 1, s, ev0 ++ map Manager_event ev ++ [Fatal_error e])
      end
  end.

(** ** Further predicates *)

(** The declaration has the key [name]. *)
Definition has_name (stream_config : RawStream) : bool :=
  match raw_name stream_config with Some _ => true | None => false end.

(** The declaration with another value for [type]. *)
Definition with_raw_type (ty : string) (stream_config : RawStream) : RawStream :=
  mkRawStream (raw_name stream_config) (Some ty) (raw_input stream_config)
    (raw_output_path stream_config) (raw_options stream_config).

(** The configuration with another value for [options]. *)
Definition with_options (opts : option (list (scalar * scalar)))
  (c : StreamConfig) : StreamConfig :=
  mkStreamConfig (name c) (type c) (input c) (output_path c) opts.

(** The number of entries into [start] for the stream [k] among events. *)
Fixpoint starts_of (k : string) (ev : list event) : nat :=
  match ev with
  | [] => O
  | Call_start n :: rest =>
      if String.eqb n k then S (starts_of k rest) else starts_of k rest
  | _ :: rest => starts_of k rest
  end.

(** The restart counters of the handles of the stream named [k], added
    up. *)
Fixpoint restarts_used (k : string) (streams : dict FFmpegProcess) : Z :=
  match streams with
  | [] => 0
  | (_, h) :: rest =>
      (if String.eqb (name (config h)) k then restart_count h else 0)
      + restarts_used k rest
  end.

(** The two handles differ at most in the process reference and the
    counter. *)
Definition same_settings (h h' : FFmpegProcess) : Prop :=
  config h' = config h /\
  rtsp_server h' = rtsp_server h /\
  max_restarts h' = max_restarts h /\
  last_restart h' = last_restart h /\
  restart_interval h' = restart_interval h.

(** The events of the manager's methods among the events of [main]. *)
Fixpoint manager_events (ev : list main_event) : list event :=
  match ev with
  | [] => []
  | Manager_event e :: rest => e :: manager_events rest
  | _ :: rest => manager_events rest
  end.

(** An operating system in which a polled process has always exited. *)
Definition always_exited (os : OS) : Prop :=
  forall p w, fst (os_poll os p w) <> None.

(** A host over the scripted operating system: the world is the script,
    the file is the given document, the environment is empty. *)
Definition scripted_host (doc : result document) : Host :=
  {| host_os := scripted;
     host_load_yaml := fun _ w => (doc, w);
     host_getenv := fun _ _ => None |}.

(** The declaration of [cam2]. *)
Definition cam2_raw : RawStream :=
  mkRawStream (Some "cam2") (Some "RTSP") (Some "rtsp://10.0.0.7/live")
    (Some "cam2/stream") (Some [(SStr "an", SInt 1)]).

(** The declaration is not under the name [k]. *)
Definition not_named (k : string) (stream_config : RawStream) : bool :=
  match raw_name stream_config with
  | Some nm => negb (String.eqb nm k)
  | None => true
  end.

(** A world in which the next two spawns succeed, with the processes [n]
    and [m]. *)
Definition spawning_two (n m : Z) : Script :=
  mkScript [Ok (mkPopen n); Ok (mkPopen m)] [] [] [] [].

(** A world in which the next spawn succeeds, with the process [n], and
    the one after it fails. *)
Definition spawning_then_failing (n : Z) : Script :=
  mkScript [Ok (mkPopen n); Raise (OSError "Resource temporarily unavailable")]
    [] [] [] [].

(** A declaration of an [hls] stream. *)
Definition hls_raw : RawStream :=
  mkRawStream (Some "cam9") (Some "hls") (Some "http://10.0.0.9/live.m3u8")
    (Some "cam9/stream") None.

(** A declaration whose type is not a member of the enumeration. *)
Definition webrtc_raw : RawStream :=
  mkRawStream (Some "cam8") (Some "webrtc") (Some "x") (Some "cam8/stream") None.

(** The element that follows the first occurrence of [flag] in an argument
    list. *)
Fixpoint value_of_first (flag : string) (args : list string) : option string :=
  match args with
  | [] => None
  | a :: rest =>
      if String.eqb a flag
      then match rest with [] => None | v :: _ => Some v end
      else value_of_first flag rest
  end.

(** The entry of a stream with the process reference of its handle
    cleared. *)
Definition cleared (kh : string * FFmpegProcess) : string * FFmpegProcess :=
  (fst kh, with_process None (snd kh)).

(** The entry marks that [cleanup] leaves for a tracking map. *)
Definition stop_marks (streams : dict FFmpegProcess) : list event :=
  map (fun kh => Call_stop (name (config (snd kh)))) streams.

(** The number of "failed too many times" records for the stream [k]
    among events. *)
Fixpoint give_ups (k : string) (ev : list event) : nat :=
  match ev with
  | [] => O
  | Log ERROR (Failed_too_many_times n) :: rest =>
      if String.eqb n k then S (give_ups k rest) else give_ups k rest
  | _ :: rest => give_ups k rest
  end.

(** The number of entries under the key [k] whose counter is at the
    bound. *)
Fixpoint parked (k : string) (streams : dict FFmpegProcess) : nat :=
  match streams with
  | [] => O
  | (k0, h) :: rest =>
      if String.eqb k0 k && (max_restarts h <=? restart_count h)
      then S (parked k rest) else parked k rest
  end.

(** * Properties *)

(** ** The command builder *)

(** A conversion fails in one way only. *)
Lemma str_error (v : scalar) (e : exn) : str v = Raise e -> e = int_too_long.
Proof.
  destruct v as [s|z|[]|]; simpl; try discriminate.
  destruct (int_digits z <=? int_max_str_digits); [discriminate|].
  now intros H; inversion H.
Qed.

(** The loop over the options returns exactly when every key and value
    converts, with the pairs of the string forms in the mapping's order. *)
Lemma option_pairs_rendered (kvs : list (scalar * scalar)) (args : list string) :
  option_pairs kvs = Ok args <->
  exists strs, rendered kvs strs /\ args = pair_args strs.
Proof.
  revert args. induction kvs as [|[k v] kvs IH]; intros args; simpl.
  - split.
    + intros H; inversion H. exists []. split; [constructor|reflexivity].
    + intros (strs & Hr & ->). inversion Hr. reflexivity.
  - split.
    + destruct (str k) as [ks|e] eqn:Hk; [|discriminate].
      destruct (str v) as [vs|e] eqn:Hv; [|discriminate].
      destruct (option_pairs kvs) as [tl|e]; [|discriminate].
      intros H; inversion H; subst.
      destruct (proj1 (IH tl) eq_refl) as (strs & Hr & ->).
      exists ((ks, vs) :: strs). split; [|reflexivity].
      constructor; [now split|exact Hr].
    + intros (strs & Hr & ->). inversion Hr as [|kv ss l l' [Hk Hv] Hr']; subst.
      simpl in Hk, Hv. rewrite Hk, Hv.
      rewrite (proj2 (IH (pair_args l')))
        by (exists l'; split; [exact Hr'|reflexivity]).
      reflexivity.
Qed.

Lemma option_pairs_error (kvs : list (scalar * scalar)) (e : exn) :
  option_pairs kvs = Raise e -> e = int_too_long.
Proof.
  induction kvs as [|[k v] kvs IH]; simpl; [discriminate|].
  destruct (str k) as [ks|e0] eqn:Hk;
    [|intros H; inversion H; subst; now apply str_error in Hk].
  destruct (str v) as [vs|e0] eqn:Hv;
    [|intros H; inversion H; subst; now apply str_error in Hv].
  destruct (option_pairs kvs) as [tl|e0]; [discriminate|].
  intros H; inversion H; subst. now apply IH.
Qed.

Lemma option_args_rendered (opts : option (list (scalar * scalar)))
  (args : list string) :
  option_args opts = Ok args <->
  exists strs, rendered (options_items opts) strs /\ args = pair_args strs.
Proof.
  destruct opts as [[|kv kvs]|].
  - exact (option_pairs_rendered [] args).
  - exact (option_pairs_rendered (kv :: kvs) args).
  - exact (option_pairs_rendered [] args).
Qed.

Lemma option_args_error (opts : option (list (scalar * scalar))) (e : exn) :
  option_args opts = Raise e -> e = int_too_long.
Proof.
  destruct opts as [[|kv kvs]|]; try discriminate.
  apply option_pairs_error.
Qed.

(** The builder on a supported type: the template, then what the options
    give, an exception or their arguments, then the sink. *)
Lemma build_command_supported (server : string) (c : StreamConfig) :
  supported (type c) = true ->
  exists template,
    type_args c = Ok template /\
    _build_command server c =
      match option_args (options c) with
      | Raise e => Raise e
      | Ok pairs =>
          Ok ((["ffmpeg"; "-re"] ++ template) ++ pairs ++ output_args server c)
      end.
Proof.
  intros Hs. unfold _build_command, type_args.
  destruct (type c) eqn:Ht; try discriminate Hs;
    eexists; (split; [reflexivity|]);
    destruct (option_args (options c)); reflexivity.
Qed.

Lemma build_command_rendered (server : string) (c : StreamConfig)
  (strs : list (string * string)) :
  supported (type c) = true ->
  rendered (options_items (options c)) strs ->
  exists template,
    type_args c = Ok template /\
    _build_command server c =
      Ok ((["ffmpeg"; "-re"] ++ template) ++ pair_args strs
            ++ output_args server c).
Proof.
  intros Hs Hr.
  destruct (build_command_supported server c Hs) as (template & Ht & Hb).
  exists template. split; [exact Ht|]. rewrite Hb.
  now rewrite (proj2 (option_args_rendered (options c) (pair_args strs)))
    by (exists strs; split; [exact Hr|reflexivity]).
Qed.

Lemma build_command_returned (server : string) (c : StreamConfig)
  (command : list string) :
  _build_command server c = Ok command ->
  exists template strs,
    type_args c = Ok template /\
    rendered (options_items (options c)) strs /\
    command = (["ffmpeg"; "-re"] ++ template) ++ pair_args strs
                ++ output_args server c.
Proof.
  intros Hb.
  assert (Hs : supported (type c) = true).
  { unfold _build_command, type_args in Hb.
    destruct (type c); try reflexivity; discriminate. }
  destruct (build_command_supported server c Hs) as (template & Ht & Hb').
  rewrite Hb' in Hb.
  destruct (option_args (options c)) as [pairs|e] eqn:Ho; [|discriminate].
  apply option_args_rendered in Ho. destruct Ho as (strs & Hr & ->).
  exists template, strs. inversion Hb. auto.
Qed.

(** C5, as the code has it.  For a [file] declaration whose option keys
    and values all convert to strings, the built command is [ffmpeg -re],
    then the contiguous [-stream_loop -1 -i <input>], then the transcode
    template, then the option pairs, and it ends with
    [-f rtsp <base>/<output_path>]; and the builder returns a command for a
    [file] declaration only if the options convert.  In particular for
    [cam1] with input [/media/loop.mp4] and output path [cam1/stream],
    whatever the base: without options, and with options that convert. *)
Theorem file_command_loops_input :
  (forall server nm inp out opts strs,
     rendered (options_items opts) strs ->
     _build_command server (mkStreamConfig nm FILE inp out opts) =
       Ok (["ffmpeg"; "-re"]
             ++ ["-stream_loop"; "-1"; "-i"; inp]
             ++ transcode_args
             ++ pair_args strs
             ++ ["-f"; "rtsp"; (server ++ "/" ++ out)%string])) /\
  (forall server nm inp out opts command,
     _build_command server (mkStreamConfig nm FILE inp out opts) = Ok command ->
     exists strs, rendered (options_items opts) strs) /\
  (forall server,
     _build_command server
       (mkStreamConfig "cam1" FILE "/media/loop.mp4" "cam1/stream" None) =
       Ok (["ffmpeg"; "-re"]
             ++ ["-stream_loop"; "-1"; "-i"; "/media/loop.mp4"]
             ++ transcode_args
             ++ ["-f"; "rtsp"; (server ++ "/cam1/stream")%string])) /\
  (forall server opts strs,
     rendered (options_items opts) strs ->
     _build_command server
       (mkStreamConfig "cam1" FILE "/media/loop.mp4" "cam1/stream" opts) =
       Ok (["ffmpeg"; "-re"]
             ++ ["-stream_loop"; "-1"; "-i"; "/media/loop.mp4"]
             ++ transcode_args
             ++ pair_args strs
             ++ ["-f"; "rtsp"; (server ++ "/cam1/stream")%string])).
Proof.
  assert (H : forall server nm inp out opts strs,
     rendered (options_items opts) strs ->
     _build_command server (mkStreamConfig nm FILE inp out opts) =
       Ok (["ffmpeg"; "-re"]
             ++ ["-stream_loop"; "-1"; "-i"; inp]
             ++ transcode_args
             ++ pair_args strs
             ++ ["-f"; "rtsp"; (server ++ "/" ++ out)%string])).
  { intros server nm inp out opts strs Hr.
    destruct (@build_command_rendered server
                (mkStreamConfig nm FILE inp out opts) strs eq_refl Hr)
      as (template & Ht & Hb).
    rewrite Hb. inversion Ht; subst. reflexivity. }
  split; [exact H|]. split; [|split].
  - intros server nm inp out opts command Hb.
    apply build_command_returned in Hb.
    destruct Hb as (template & strs & _ & Hr & _). exists strs. exact Hr.
  - intros server. apply (H server "cam1" _ _ None []). constructor.
  - intros server opts strs Hr. now apply H.
Qed.

Lemma file_command_loops_input_witness :
  _build_command mediamtx
    (mkStreamConfig "cam1" FILE "/media/loop.mp4" "cam1/stream"
       (Some [(SStr "g", SInt 25); (SStr "an", SBool true)])) =
    Ok (["ffmpeg"; "-re"]
          ++ ["-stream_loop"; "-1"; "-i"; "/media/loop.mp4"]
          ++ transcode_args
          ++ ["-g"; "25"; "-an"; "True"]
          ++ ["-f"; "rtsp"; "rtsp://mediamtx:8554/cam1/stream"]).
Proof.
  apply (proj1 file_command_loops_input mediamtx "cam1" "/media/loop.mp4"
           "cam1/stream" (Some [(SStr "g", SInt 25); (SStr "an", SBool true)])
           [("g", "25"); ("an", "True")]).
  repeat constructor.
Defined.

(** The claim C5 fails where an option does not convert: for an integer of
    4301 digits [str] raises, and the builder raises that [ValueError]
    in place of returning a command. *)
Lemma file_command_huge_option_raises :
  _build_command mediamtx
    (mkStreamConfig "cam1" FILE "/media/loop.mp4" "cam1/stream"
       (Some [(SStr "g", SInt huge)])) =
    Raise int_too_long.
Proof. vm_compute. reflexivity. Qed.

(** C6.  For [hls] and [udp] the builder gives no argument list: it raises
    the unsupported-type error.  For [file], [rtsp] and [rtmp] it never
    raises that error: the one exception it can raise there is that of an
    option integer too long to convert, and it returns an argument list
    whenever the options convert. *)
Theorem build_command_unsupported_iff :
  forall server nm t inp out opts,
    match t with
    | HLS | UDP =>
        _build_command server (mkStreamConfig nm t inp out opts) =
          Raise (UnsupportedSourceType t)
    | FILE | RTSP | RTMP =>
        (forall e,
           _build_command server (mkStreamConfig nm t inp out opts) = Raise e ->
           e = int_too_long /\ forall t', e <> UnsupportedSourceType t') /\
        (forall strs,
           rendered (options_items opts) strs ->
           exists command,
             _build_command server (mkStreamConfig nm t inp out opts) =
               Ok command)
    end.
Proof.
  intros server nm t inp out opts.
  assert (Hsup : supported t = true ->
    (forall e,
       _build_command server (mkStreamConfig nm t inp out opts) = Raise e ->
       e = int_too_long /\ forall t', e <> UnsupportedSourceType t') /\
    (forall strs,
       rendered (options_items opts) strs ->
       exists command,
         _build_command server (mkStreamConfig nm t inp out opts) = Ok command)).
  { intros Hs. split.
    - intros e Hb.
      destruct (build_command_supported server
                  (mkStreamConfig nm t inp out opts) Hs)
        as (template & _ & Hb').
      rewrite Hb' in Hb. simpl in Hb.
      destruct (option_args opts) as [pairs|e0] eqn:Ho; [discriminate|].
      inversion Hb; subst. apply option_args_error in Ho. subst e.
      split; [reflexivity|]. intros t' H. destruct t'; discriminate H.
    - intros strs Hr.
      destruct (@build_command_rendered server
                  (mkStreamConfig nm t inp out opts) strs Hs Hr)
        as (template & _ & Hb).
      eexists. exact Hb. }
  destruct t; try reflexivity; now apply Hsup.
Qed.

Lemma build_command_unsupported_iff_witness :
  (int_too_long = int_too_long /\
   forall t', int_too_long <> UnsupportedSourceType t') /\
  exists command,
    _build_command mediamtx
      (mkStreamConfig "cam2" RTSP "rtsp://10.0.0.7/live" "cam2/stream"
         (Some [(SStr "an", SInt 1)])) = Ok command.
Proof.
  split.
  - apply (proj1 (build_command_unsupported_iff mediamtx "cam1" FILE
                    "/media/loop.mp4" "cam1/stream"
                    (Some [(SStr "g", SInt huge)]))).
    vm_compute. reflexivity.
  - apply (proj2 (build_command_unsupported_iff mediamtx "cam2" RTSP
                    "rtsp://10.0.0.7/live" "cam2/stream"
                    (Some [(SStr "an", SInt 1)]))
             [("an", "1")]).
    repeat constructor.
Defined.

(** C7, as the code has it.  For a supported source type and an options
    mapping whose keys and values all convert to strings, the command is
    [ffmpeg -re], the complete template of the type, then one
    [-<key> <value>] pair per option in the mapping's order, then the output
    sink [-f rtsp] and [<rtsp_server>/<output_path>], which is where the list
    ends.  Every command the builder returns is of this form. *)
Theorem options_between_template_and_sink (server : string) (c : StreamConfig) :
  supported (type c) = true ->
  exists template,
    type_args c = Ok template /\
    (forall strs,
       rendered (options_items (options c)) strs ->
       _build_command server c =
         Ok ((["ffmpeg"; "-re"] ++ template)
               ++ pair_args strs
               ++ ["-f"; "rtsp"; (server ++ "/" ++ output_path c)%string])) /\
    (forall command,
       _build_command server c = Ok command ->
       exists strs,
         rendered (options_items (options c)) strs /\
         command =
           (["ffmpeg"; "-re"] ++ template)
             ++ pair_args strs
             ++ ["-f"; "rtsp"; (server ++ "/" ++ output_path c)%string]).
Proof.
  intros Hs.
  destruct (build_command_supported server c Hs) as (template & Ht & _).
  exists template. split; [exact Ht|]. split.
  - intros strs Hr.
    destruct (@build_command_rendered server c strs Hs Hr)
      as (template' & Ht' & Hb).
    rewrite Ht in Ht'. inversion Ht'; subst. exact Hb.
  - intros command Hb. apply build_command_returned in Hb.
    destruct Hb as (template' & strs & Ht' & Hr & ->).
    rewrite Ht in Ht'. inversion Ht'; subst. exists strs. now split.
Qed.

Lemma options_between_template_and_sink_witness :
  supported (type cam2) = true /\
  _build_command mediamtx cam2 =
    Ok [ "ffmpeg"; "-re";
         "-rtsp_transport"; "tcp"; "-i"; "rtsp://10.0.0.7/live";
         "-c"; "copy"; "-f"; "rtsp"; "-rtsp_transport"; "tcp";
         "-an"; "1";
         "-f"; "rtsp"; "rtsp://mediamtx:8554/cam2/stream" ].
Proof.
  split; [reflexivity|].
  destruct (options_between_template_and_sink mediamtx cam2 eq_refl)
    as (template & Ht & Hb & _).
  rewrite (Hb [("an", "1")]) by (repeat constructor).
  injection Ht as <-. reflexivity.
Defined.

(** The claim C7 fails where an option does not convert: with an option
    value of 4301 digits the builder returns no list at all. *)
Lemma options_huge_value_raises :
  supported (type cam2) = true /\
  _build_command mediamtx
    (mkStreamConfig "cam2" RTSP "rtsp://10.0.0.7/live" "cam2/stream"
       (Some [(SStr "an", SInt 1); (SStr "bufsize", SInt huge)])) =
    Raise int_too_long.
Proof. split; [reflexivity|]. vm_compute. reflexivity. Qed.

(** C10, as the code has it.  For [file], [rtsp] and [rtmp] alike, every
    command the builder returns begins with the executable name [ffmpeg]
    followed at once by [-re], and it returns one whenever the option keys
    and values convert to strings. *)
Theorem command_begins_with_ffmpeg_re :
  forall server nm t inp out opts,
    match t with
    | FILE | RTSP | RTMP =>
        (forall strs,
           rendered (options_items opts) strs ->
           exists rest,
             _build_command server (mkStreamConfig nm t inp out opts) =
               Ok ("ffmpeg" :: "-re" :: rest)) /\
        (forall command,
           _build_command server (mkStreamConfig nm t inp out opts) =
             Ok command ->
           exists rest, command = "ffmpeg" :: "-re" :: rest)
    | HLS | UDP => True
    end.
Proof.
  intros server nm t inp out opts.
  assert (Hsup : supported t = true ->
    (forall strs,
       rendered (options_items opts) strs ->
       exists rest,
         _build_command server (mkStreamConfig nm t inp out opts) =
           Ok ("ffmpeg" :: "-re" :: rest)) /\
    (forall command,
       _build_command server (mkStreamConfig nm t inp out opts) = Ok command ->
       exists rest, command = "ffmpeg" :: "-re" :: rest)).
  { intros Hs. split.
    - intros strs Hr.
      destruct (@build_command_rendered server
                  (mkStreamConfig nm t inp out opts) strs Hs Hr)
        as (template & _ & Hb).
      rewrite Hb. eexists. reflexivity.
    - intros command Hb. apply build_command_returned in Hb.
      destruct Hb as (template & strs & _ & _ & ->). eexists. reflexivity. }
  destruct t; try exact I; now apply Hsup.
Qed.

Lemma command_begins_with_ffmpeg_re_witness :
  exists rest,
    _build_command mediamtx
      (mkStreamConfig "cam3" RTMP "rtmp://10.0.0.8/live" "cam3/stream"
         (Some [(SInt 7, SNull)])) =
      Ok ("ffmpeg" :: "-re" :: rest).
Proof.
  apply (proj1 (command_begins_with_ffmpeg_re mediamtx "cam3" RTMP
                  "rtmp://10.0.0.8/live" "cam3/stream"
                  (Some [(SInt 7, SNull)]))
           [("7", "None")]).
  repeat constructor.
Defined.

(** The claim C10 fails where an option does not convert: with an option
    key of 4301 digits the [rtmp] relay gets no argument list, so none that
    begins with [ffmpeg -re]. *)
Lemma command_huge_key_raises :
  _build_command mediamtx
    (mkStreamConfig "cam3" RTMP "rtmp://10.0.0.8/live" "cam3/stream"
       (Some [(SInt huge, SStr "1")])) =
    Raise int_too_long.
Proof. vm_compute. reflexivity. Qed.

(** ** The process handle *)

Section Handle.

Variable os : OS.

Ltac run :=
  unfold start, stop, is_alive, monitor_stream, bind, try_except, ret, raise,
    emit, of_result, get_self, set_self, os_call, Exception; simpl.

(** [start], by cases on the builder and on the spawn. *)
Lemma start_equation (h : FFmpegProcess) (w : World os) :
  start (h, w) =
  let nm := name (config h) in
  match _build_command (rtsp_server h) (config h) with
  | Raise e =>
      (Ok false, (h, w),
       [Call_start nm; Log ERROR (Failed_to_start_stream nm e)])
  | Ok command =>
      match os_Popen os command w with
      | (Ok p, w') =>
          (Ok true, (with_process (Some p) h, w'),
           [Call_start nm; Log INFO (Starting_stream nm);
            Log DEBUG (Command (String.concat " " command))])
      | (Raise e, w') =>
          (Ok false, (h, w'),
           [Call_start nm; Log INFO (Starting_stream nm);
            Log DEBUG (Command (String.concat " " command));
            Log ERROR (Failed_to_start_stream nm e)])
      end
  end.
Proof.
  run. destruct (_build_command (rtsp_server h) (config h)) as [command|e];
    simpl; [|reflexivity].
  destruct (os_Popen os command w) as [[p|e] w']; reflexivity.
Qed.

(** [start] returns a boolean: it never raises. *)
Lemma start_returns (h : FFmpegProcess) (w : World os) :
  exists b h' w' ev, start (h, w) = (Ok b, (h', w'), ev).
Proof.
  rewrite start_equation; cbv zeta.
  destruct (_build_command (rtsp_server h) (config h)) as [command|e].
  - destruct (os_Popen os command w) as [[p|e] w']; repeat eexists.
  - repeat eexists.
Qed.

(** What [start] may change in a handle is its process reference, and the
    first thing it emits is its own entry. *)
Lemma start_frame (h h' : FFmpegProcess) (w w' : World os) r ev :
  start (h, w) = (r, (h', w'), ev) ->
  config h' = config h /\ rtsp_server h' = rtsp_server h /\
  restart_count h' = restart_count h /\ max_restarts h' = max_restarts h /\
  (exists ev', ev = Call_start (name (config h)) :: ev' /\
               forall k, ~ In (Call_start k) ev').
Proof.
  rewrite start_equation; cbv zeta.
  destruct (_build_command (rtsp_server h) (config h)) as [command|e].
  - destruct (os_Popen os command w) as [[p|e] w1]; intros H; inversion H; subst;
      (repeat split; try reflexivity);
      eexists; (split; [reflexivity|]);
      intros k Hin; simpl in Hin; intuition discriminate.
  - intros H; inversion H; subst. repeat split; try reflexivity.
    eexists; split; [reflexivity|].
    intros k Hin; simpl in Hin; intuition discriminate.
Qed.

(** [is_alive] polls the process if there is one; it changes nothing in
    the handle and emits nothing. *)
Lemma is_alive_equation (h : FFmpegProcess) (w : World os) :
  is_alive (h, w) =
  match process h with
  | Some p =>
      match os_poll os p w with
      | (None, w') => (Ok true, (h, w'), [])
      | (Some _, w') => (Ok false, (h, w'), [])
      end
  | None => (Ok false, (h, w), [])
  end.
Proof.
  run. destruct (process h) as [p|]; simpl; [|reflexivity].
  destruct (os_poll os p w) as [[rc|] w']; reflexivity.
Qed.

Lemma is_alive_returns (h : FFmpegProcess) (w : World os) :
  exists b w', is_alive (h, w) = (Ok b, (h, w'), []).
Proof.
  rewrite is_alive_equation. destruct (process h) as [p|].
  - destruct (os_poll os p w) as [[rc|] w']; repeat eexists.
  - repeat eexists.
Qed.

(** [stop], by cases on the handle and on what the system calls do. *)
Lemma stop_equation (h : FFmpegProcess) (w : World os) :
  stop (h, w) =
  let nm := name (config h) in
  match process h with
  | None => (Ok tt, (h, w), [Call_stop nm])
  | Some p =>
      let ev := [Call_stop nm; Log INFO (Stopping_stream nm)] in
      match os_terminate os p w with
      | (Raise e, w1) => (Raise e, (h, w1), ev)
      | (Ok _, w1) =>
          match os_wait os p 5 w1 with
          | (Ok _, w2) => (Ok tt, (with_process None h, w2), ev)
          | (Raise e, w2) =>
              if is_TimeoutExpired e then
                match os_kill os p w2 with
                | (Ok _, w3) => (Ok tt, (with_process None h, w3), ev)
                | (Raise e', w3) => (Raise e', (h, w3), ev)
                end
              else (Raise e, (h, w2), ev)
          end
      end
  end.
Proof.
  run. destruct (process h) as [p|]; simpl; [|reflexivity].
  destruct (os_terminate os p w) as [[[]|e] w1]; simpl; [|reflexivity].
  destruct (os_wait os p 5 w1) as [[rc|e] w2]; simpl; [reflexivity|].
  destruct (is_TimeoutExpired e); simpl; [|reflexivity].
  destruct (os_kill os p w2) as [[[]|e'] w3]; reflexivity.
Qed.

End Handle.

(** C8, as the code has it.  [stop] on a handle without a process
    reference is a no-op: nothing is signalled, nothing is logged, the
    handle and the world are as before.  A [stop] that returns leaves the
    handle without a process reference, so that a second [stop] right after
    it is that no-op and [is_alive] is false.  [stop] returns when
    [terminate] does and the process then exits within the five seconds, or
    does not and [kill] returns.  When [terminate] raises, when [wait]
    raises anything but the timeout, or when [kill] raises after the
    timeout, [stop] raises that exception to its caller and the handle keeps
    its process reference. *)
Theorem stop_idempotent (os : OS) (h : FFmpegProcess) (w : World os) :
  (process h = None ->
   stop (h, w) = (Ok tt, (h, w), [Call_stop (name (config h))])) /\
  (forall h' w' ev,
     stop (h, w) = (Ok tt, (h', w'), ev) ->
     process h' = None /\
     stop (h', w') = (Ok tt, (h', w'), [Call_stop (name (config h))]) /\
     is_alive (h', w') = (Ok false, (h', w'), [])) /\
  (forall p w1,
     process h = Some p ->
     os_terminate os p w = (Ok tt, w1) ->
     (forall rc w2,
        os_wait os p 5 w1 = (Ok rc, w2) ->
        exists ev, stop (h, w) = (Ok tt, (with_process None h, w2), ev)) /\
     (forall w2 w3,
        os_wait os p 5 w1 = (Raise TimeoutExpired, w2) ->
        os_kill os p w2 = (Ok tt, w3) ->
        exists ev, stop (h, w) = (Ok tt, (with_process None h, w3), ev))) /\
  (forall p,
     process h = Some p ->
     (forall e w1,
        os_terminate os p w = (Raise e, w1) ->
        exists ev, stop (h, w) = (Raise e, (h, w1), ev)) /\
     (forall e w1 w2,
        os_terminate os p w = (Ok tt, w1) ->
        os_wait os p 5 w1 = (Raise e, w2) ->
        is_TimeoutExpired e = false ->
        exists ev, stop (h, w) = (Raise e, (h, w2), ev)) /\
     (forall e w1 w2 w3,
        os_terminate os p w = (Ok tt, w1) ->
        os_wait os p 5 w1 = (Raise TimeoutExpired, w2) ->
        os_kill os p w2 = (Raise e, w3) ->
        exists ev, stop (h, w) = (Raise e, (h, w3), ev))).
Proof.
  split; [|split; [|split]]; cycle 3.
  { intros p Hp. split; [|split].
    - intros e w1 Hterm. rewrite stop_equation; cbv zeta.
      rewrite Hp, Hterm. eexists; reflexivity.
    - intros e w1 w2 Hterm Hwait Hne. rewrite stop_equation; cbv zeta.
      rewrite Hp, Hterm, Hwait, Hne. eexists; reflexivity.
    - intros e w1 w2 w3 Hterm Hwait Hkill. rewrite stop_equation; cbv zeta.
      rewrite Hp, Hterm, Hwait; simpl. rewrite Hkill. eexists; reflexivity. }
  - intros Hp. rewrite stop_equation; cbv zeta. now rewrite Hp.
  - intros h' w' ev Hstop.
    assert (Hh' : process h' = None /\ config h' = config h).
    { rewrite stop_equation in Hstop; cbv zeta in Hstop.
      destruct (process h) as [p|] eqn:Hp.
      - destruct (os_terminate os p w) as [[[]|e] w1]; [|discriminate].
        destruct (os_wait os p 5 w1) as [[rc|e] w2].
        + inversion Hstop; subst. now split.
        + destruct (is_TimeoutExpired e); [|discriminate].
          destruct (os_kill os p w2) as [[[]|e'] w3]; [|discriminate].
          inversion Hstop; subst. now split.
      - inversion Hstop; subst. now split. }
    destruct Hh' as [Hnone Hcfg]. split; [exact Hnone|]. split.
    + rewrite stop_equation; cbv zeta. now rewrite Hnone, Hcfg.
    + rewrite is_alive_equation. now rewrite Hnone.
  - intros p w1 Hp Hterm. split.
    + intros rc w2 Hwait. rewrite stop_equation; cbv zeta.
      rewrite Hp, Hterm, Hwait. eexists; reflexivity.
    + intros w2 w3 Hwait Hkill. rewrite stop_equation; cbv zeta.
      rewrite Hp, Hterm, Hwait; simpl. rewrite Hkill. eexists; reflexivity.
Qed.

Lemma stop_idempotent_witness :
  @stop scripted (FFmpegProcess_init cam1 mediamtx, quiet) =
    (Ok tt, (FFmpegProcess_init cam1 mediamtx, quiet), [Call_stop "cam1"]) /\
  (process (with_process None (running cam1 7)) = None /\
   @stop scripted (with_process None (running cam1 7), quiet) =
     (Ok tt, (with_process None (running cam1 7), quiet), [Call_stop "cam1"]) /\
   @is_alive scripted (with_process None (running cam1 7), quiet) =
     (Ok false, (with_process None (running cam1 7), quiet), [])) /\
  (exists ev,
     @stop scripted (running cam1 7, quiet) =
       (Ok tt, (with_process None (running cam1 7), quiet), ev)) /\
  (exists ev,
     @stop scripted (running cam1 7, stubborn) =
       (Ok tt, (with_process None (running cam1 7), quiet), ev)) /\
  (exists ev,
     @stop scripted (running cam1 7, refusing) =
       (Raise (OSError "Operation not permitted"), (running cam1 7, quiet),
        ev)) /\
  (exists ev,
     @stop scripted (running cam1 7, wait_failing) =
       (Raise (OSError "Interrupted system call"), (running cam1 7, quiet),
        ev)) /\
  (exists ev,
     @stop scripted (running cam1 7, kill_failing) =
       (Raise (OSError "Operation not permitted"), (running cam1 7, quiet),
        ev)).
Proof.
  split; [|split; [|split; [|split; [|split; [|split]]]]]; cycle 4.
  { destruct (stop_idempotent scripted (running cam1 7) refusing)
      as (_ & _ & _ & Hraises).
    destruct (Hraises (mkPopen 7) eq_refl) as (Hterm & _ & _).
    apply (Hterm (OSError "Operation not permitted") quiet). reflexivity. }
  { destruct (stop_idempotent scripted (running cam1 7) wait_failing)
      as (_ & _ & _ & Hraises).
    destruct (Hraises (mkPopen 7) eq_refl) as (_ & Hwait & _).
    apply (Hwait (OSError "Interrupted system call") wait_failing quiet);
      reflexivity. }
  { destruct (stop_idempotent scripted (running cam1 7) kill_failing)
      as (_ & _ & _ & Hraises).
    destruct (Hraises (mkPopen 7) eq_refl) as (_ & _ & Hkill).
    apply (Hkill (OSError "Operation not permitted") kill_failing
             (mkScript [] [] [] [] [Raise (OSError "Operation not permitted")])
             quiet);
      reflexivity. }
  - apply (proj1 (stop_idempotent scripted (FFmpegProcess_init cam1 mediamtx)
                    quiet)).
    reflexivity.
  - apply (proj1 (proj2 (stop_idempotent scripted (running cam1 7) stubborn))
             (with_process None (running cam1 7)) quiet
             [Call_stop "cam1"; Log INFO (Stopping_stream "cam1")]).
    reflexivity.
  - destruct (stop_idempotent scripted (running cam1 7) quiet)
      as (_ & _ & Hreturns & _).
    destruct (Hreturns (mkPopen 7) quiet eq_refl eq_refl) as [Hgraceful _].
    apply (Hgraceful 0 quiet). reflexivity.
  - destruct (stop_idempotent scripted (running cam1 7) stubborn)
      as (_ & _ & Hreturns & _).
    destruct (Hreturns (mkPopen 7) stubborn eq_refl eq_refl) as [_ Hforced].
    apply (Hforced quiet quiet); reflexivity.
Defined.

(** The claim C8 fails where a system call of [stop] raises: when
    [terminate] is refused, [stop] raises to its caller and the handle still
    holds its process reference. *)
Lemma stop_raises_and_keeps_reference :
  @stop scripted (running cam1 7, refusing) =
    (Raise (OSError "Operation not permitted"), (running cam1 7, quiet),
     [Call_stop "cam1"; Log INFO (Stopping_stream "cam1")]) /\
  process (running cam1 7) = Some (mkPopen 7).
Proof. split; reflexivity. Qed.

(** C9, as the code has it.  [start] always returns a boolean, it never
    raises; when the spawn fails it returns [False] and the handle is
    exactly as it was: without a process reference if it had none, with the
    reference of the earlier run if it had one. *)
Theorem start_failure_returns_false (os : OS) (h : FFmpegProcess) (w : World os) :
  (exists b h' w' ev, start (h, w) = (Ok b, (h', w'), ev)) /\
  (forall command e w',
     _build_command (rtsp_server h) (config h) = Ok command ->
     os_Popen os command w = (Raise e, w') ->
     exists ev, start (h, w) = (Ok false, (h, w'), ev)).
Proof.
  split; [apply start_returns|].
  intros command e w' Hb Hp. rewrite start_equation; cbv zeta.
  rewrite Hb, Hp. eexists; reflexivity.
Qed.

Lemma start_failure_returns_false_witness :
  exists ev,
    @start scripted (FFmpegProcess_init cam1 mediamtx, quiet) =
      (Ok false, (FFmpegProcess_init cam1 mediamtx, quiet), ev).
Proof.
  refine (proj2 (start_failure_returns_false scripted
                   (FFmpegProcess_init cam1 mediamtx) quiet)
            _ (OSError "No such file or directory: ffmpeg") quiet _ _);
    reflexivity.
Defined.

(** The claim C9 fails on a restart: the process of the earlier run has
    exited, the spawn fails, and the handle still holds the reference to
    the exited process. *)
Lemma failed_restart_keeps_dead_reference :
  @is_alive scripted (running cam1 7, quiet) =
    (Ok false, (running cam1 7, quiet), []) /\
  exists ev,
    @start scripted (running cam1 7, quiet) =
      (Ok false, (running cam1 7, quiet), ev) /\
    process (running cam1 7) = Some (mkPopen 7).
Proof.
  split; [reflexivity|]. eexists. split; reflexivity.
Qed.

(** ** The monitoring loop *)

Section Monitor.

Variable os : OS.

(** The pass over one stream, by cases on liveness and on the counter. *)
Lemma monitor_stream_alive k (h : FFmpegProcess) (w w1 : World os) :
  is_alive (h, w) = (Ok true, (h, w1), []) ->
  monitor_stream k (h, w) = (Ok tt, (h, w1), []).
Proof.
  intros Ha. unfold monitor_stream, bind. now rewrite Ha.
Qed.

Lemma monitor_stream_exhausted k (h : FFmpegProcess) (w w1 : World os) :
  is_alive (h, w) = (Ok false, (h, w1), []) ->
  max_restarts h <= restart_count h ->
  monitor_stream k (h, w) =
    (Ok tt, (h, w1),
     [Log WARNING (Stream_has_died k); Log ERROR (Failed_too_many_times k)]).
Proof.
  intros Ha Hc. unfold monitor_stream, bind. rewrite Ha. simpl.
  destruct (Z.ltb_spec (restart_count h) (max_restarts h)); [lia|reflexivity].
Qed.

Lemma monitor_stream_restart k (h : FFmpegProcess) (w w1 : World os) :
  is_alive (h, w) = (Ok false, (h, w1), []) ->
  restart_count h < max_restarts h ->
  exists b h' w2 ev,
    start (with_restart_count (restart_count h + 1) h, w1) =
      (Ok b, (h', w2), Call_start (name (config h)) :: ev) /\
    (forall n, ~ In (Call_start n) ev) /\
    monitor_stream k (h, w) =
      (Ok tt, (h', w2),
       Log WARNING (Stream_has_died k) :: Call_start (name (config h)) :: ev) /\
    restart_count h' = restart_count h + 1 /\
    max_restarts h' = max_restarts h /\
    config h' = config h.
Proof.
  intros Ha Hc.
  destruct (start_returns os (with_restart_count (restart_count h + 1) h) w1)
    as (b & h' & w2 & ev & Hs).
  destruct (start_frame _ _ Hs) as (Hcfg & _ & Hrc & Hmax & ev' & -> & Hno).
  exists b, h', w2, ev'. simpl in *.
  split; [exact Hs|]. split; [exact Hno|]. split; [|now repeat split].
  unfold monitor_stream, bind. rewrite Ha. simpl.
  destruct (Z.ltb_spec (restart_count h) (max_restarts h)); [|lia].
  unfold set_self; simpl. rewrite Hs. simpl. now rewrite app_nil_r.
Qed.

Lemma monitor_stream_effect k (h : FFmpegProcess) (w : World os) :
  exists h' w' ev,
    monitor_stream k (h, w) = (Ok tt, (h', w'), ev) /\ pass_effect k h h' ev.
Proof.
  destruct (is_alive_returns os h w) as (b & w1 & Ha). destruct b.
  - exists h, w1, []. split; [now apply monitor_stream_alive|].
    unfold pass_effect.
    split; [reflexivity|]. split; [reflexivity|]. split; [lia|].
    split; [tauto|]. split; [|intros n []].
    intros _. split; [reflexivity|intros n []].
  - destruct (Z.lt_ge_cases (restart_count h) (max_restarts h)) as [Hlt|Hge].
    + destruct (monitor_stream_restart k _ Ha Hlt)
        as (b & h' & w2 & ev & _ & Hno & Hm & Hrc & Hmax & Hcfg).
      exists h', w2. eexists. split; [exact Hm|].
      unfold pass_effect, within_bound.
      split; [exact Hcfg|]. split; [exact Hmax|]. split; [lia|].
      split; [lia|]. split; [lia|].
      intros n [Hin|[Hin|Hin]]; [discriminate| |now apply Hno in Hin].
      now injection Hin.
    + exists h, w1. eexists. split; [now apply monitor_stream_exhausted|].
      unfold pass_effect.
      split; [reflexivity|]. split; [reflexivity|]. split; [lia|].
      split; [tauto|]. split.
      * intros _. split; [reflexivity|].
        intros n [Hin|[Hin|[]]]; discriminate.
      * intros n [Hin|[Hin|[]]]; discriminate.
Qed.

End Monitor.

(** ** Loops over the tracked streams *)

Lemma In_keys {V : Type} (d : dict V) k v : In (k, v) d -> In k (keys d).
Proof. intros H. apply (in_map fst) in H. exact H. Qed.

Lemma NoDup_keys_functional {V : Type} (d : dict V) k v v' :
  NoDup (keys d) -> In (k, v) d -> In (k, v') d -> v = v'.
Proof.
  induction d as [|[k0 v0] d IH]; simpl; intros Hnd Hv Hv'; [contradiction|].
  inversion Hnd as [|? ? Hnotin Hnd']; subst.
  destruct Hv as [Hv|Hv], Hv' as [Hv'|Hv'].
  - congruence.
  - injection Hv as -> ->. apply In_keys in Hv'. contradiction.
  - injection Hv' as -> ->. apply In_keys in Hv. contradiction.
  - now apply IH.
Qed.

Lemma In_dict_get {V : Type} (d : dict V) k v :
  NoDup (keys d) -> In (k, v) d -> dict_get d k = Some v.
Proof.
  induction d as [|[k0 v0] d IH]; simpl; intros Hnd Hin; [contradiction|].
  inversion Hnd as [|? ? Hnotin Hnd']; subst.
  destruct (String.eqb_spec k0 k) as [->|Hne].
  - destruct Hin as [Hin|Hin]; [congruence|].
    apply In_keys in Hin. contradiction.
  - destruct Hin as [Hin|Hin]; [congruence|]. now apply IH.
Qed.

Section ForItems.

Variable os : OS.
Variable body : string -> M (HState os) unit.

Lemma for_items_keys (l : dict FFmpegProcess) :
  forall (w : World os) r l' w' ev,
    for_items body l w = (r, (l', w'), ev) -> keys l' = keys l.
Proof.
  induction l as [|[k h] l IH]; simpl; intros w r l' w' ev H.
  - now inversion H.
  - destruct (body k (h, w)) as [[[[]|e] [h1 w1]] ev1].
    + destruct (for_items body l w1) as [[r2 [l2 w2]] ev2] eqn:Hrest.
      inversion H; subst. simpl. f_equal. eapply IH; eassumption.
    + inversion H; subst. reflexivity.
Qed.

(** The loop over two stretches of the mapping is the loop over the first,
    then, unless that raised, the loop over the second. *)
Lemma for_items_app (l1 l2 : dict FFmpegProcess) :
  forall w : World os,
    for_items body (l1 ++ l2) w =
    match for_items body l1 w with
    | (Ok _, (l1', w1), ev1) =>
        match for_items body l2 w1 with
        | (r, (l2', w2), ev2) => (r, (l1' ++ l2', w2), ev1 ++ ev2)
        end
    | (Raise e, (l1', w1), ev1) => (Raise e, (l1' ++ l2, w1), ev1)
    end.
Proof.
  induction l1 as [|[k h] l1 IH]; simpl; intros w.
  - destruct (for_items body l2 w) as [[r [l2' w2]] ev2]. reflexivity.
  - destruct (body k (h, w)) as [[[[]|e] [h1 w1]] ev1]; [|reflexivity].
    rewrite IH.
    destruct (for_items body l1 w1) as [[[[]|e] [l1' w1']] ev1']; [|reflexivity].
    destruct (for_items body l2 w1') as [[r [l2' w2]] ev2].
    now rewrite app_assoc.
Qed.

(** A body that always returns, with an effect [R] on the handle it is
    given, makes a loop that returns, with that effect on every handle; and
    every event of the loop is an event of the body on some entry. *)
Variable R : string -> FFmpegProcess -> FFmpegProcess -> list event -> Prop.

Hypothesis body_returns :
  forall k h (w : World os),
    exists h' w' ev, body k (h, w) = (Ok tt, (h', w'), ev) /\ R k h h' ev.

Lemma for_items_returns (l : dict FFmpegProcess) :
  forall w : World os,
    exists l' w' ev,
      for_items body l w = (Ok tt, (l', w'), ev) /\
      Forall2 (fun kh kh' =>
                 fst kh' = fst kh /\
                 exists ev1, R (fst kh) (snd kh) (snd kh') ev1) l l' /\
      (forall e, In e ev ->
                 exists k h h' ev1,
                   In (k, h) l /\ R k h h' ev1 /\ In e ev1).
Proof.
  induction l as [|[k h] l IH]; simpl; intros w.
  - exists [], w, []. split; [reflexivity|]. split; [constructor|].
    intros e [].
  - destruct (body_returns k h w) as (h1 & w1 & ev1 & Hb & HR).
    destruct (IH w1) as (l2 & w2 & ev2 & Hl & HF & Hev).
    rewrite Hb, Hl. exists ((k, h1) :: l2), w2, (ev1 ++ ev2).
    split; [reflexivity|]. split.
    + constructor; [|exact HF]. simpl. split; [reflexivity|].
      exists ev1. exact HR.
    + intros e Hin. apply in_app_or in Hin. destruct Hin as [Hin|Hin].
      * exists k, h, h1, ev1. auto.
      * destruct (Hev e Hin) as (k' & h' & h'' & ev' & Hin' & HR' & He).
        exists k', h', h'', ev'. auto.
Qed.

End ForItems.

(** ** Passes of the monitoring loop over the tracking map *)

Lemma advance_refl kh : advance kh kh.
Proof. unfold advance. repeat split; auto. lia. Qed.

Lemma advance_trans kh1 kh2 kh3 :
  advance kh1 kh2 -> advance kh2 kh3 -> advance kh1 kh3.
Proof.
  unfold advance.
  intros (Hk & Hc & Hm & Hr & Hb & He) (Hk' & Hc' & Hm' & Hr' & Hb' & He').
  split; [congruence|]. split; [congruence|]. split; [congruence|].
  split; [lia|]. split; [tauto|].
  intros Hx. rewrite He' by (rewrite (He Hx); exact Hx). exact (He Hx).
Qed.

Lemma Forall2_advance_refl l : Forall2 advance l l.
Proof. induction l; constructor; auto using advance_refl. Qed.

Lemma Forall2_advance_trans l1 : forall l2 l3,
  Forall2 advance l1 l2 -> Forall2 advance l2 l3 -> Forall2 advance l1 l3.
Proof.
  induction l1 as [|a l1 IH]; intros l2 l3 H12 H23;
    inversion H12; subst; inversion H23; subst; constructor.
  - eapply advance_trans; eassumption.
  - eapply IH; eassumption.
Qed.

Lemma Forall2_advance_keys l l' : Forall2 advance l l' -> keys l' = keys l.
Proof.
  induction 1 as [|kh kh' l l' Ha _ IH]; [reflexivity|].
  simpl. f_equal; [apply Ha|exact IH].
Qed.

Lemma Forall2_advance_tracking l l' :
  Forall2 advance l l' -> tracking l -> tracking l'.
Proof.
  intros HF (Hnd & Hfiled & Hbound). split; [|split].
  - now rewrite (Forall2_advance_keys HF).
  - clear Hnd Hbound. induction HF as [|kh kh' l l' Ha _ IH]; [constructor|].
    inversion Hfiled; subst. constructor; [|auto].
    unfold filed_by_name in *. destruct Ha as (Hk & Hc & _). congruence.
  - clear Hnd Hfiled. induction HF as [|kh kh' l l' Ha _ IH]; [constructor|].
    inversion Hbound; subst. constructor; [|auto].
    destruct Ha as (_ & _ & _ & _ & Hb & _). auto.
Qed.

(** An entry at its bound is carried along unchanged. *)
Lemma Forall2_advance_exhausted l l' k h :
  Forall2 advance l l' -> In (k, h) l ->
  max_restarts h <= restart_count h -> In (k, h) l'.
Proof.
  induction 1 as [|kh kh' l l' Ha _ IH]; simpl; intros Hin Hx; [contradiction|].
  destruct Hin as [->|Hin]; [|right; auto].
  left. destruct Ha as (Hk & _ & _ & _ & _ & He).
  destruct kh' as [k' h']. simpl in *. now rewrite Hk, (He Hx).
Qed.

Section Ticks.

Variable os : OS.

Lemma monitor_tick_step (streams : dict FFmpegProcess) (w : World os) :
  tracking streams ->
  exists streams' w' ev,
    monitor_tick (streams, w) = (Ok tt, (streams', w'), ev) /\
    tracking streams' /\
    Forall2 advance streams streams' /\
    (forall k h, In (k, h) streams ->
                 max_restarts h <= restart_count h ->
                 ~ In (Call_start k) ev).
Proof.
  intros Htr.
  destruct (for_items_returns (@monitor_stream os) pass_effect
              (@monitor_stream_effect os) streams w)
    as (streams' & w' & ev & Hrun & HF & Hev).
  assert (Hadv : Forall2 advance streams streams').
  { eapply Forall2_impl; [|exact HF]. simpl.
    intros kh kh' (Hk & ev1 & Hc & Hm & Hr & Hb & He & _).
    unfold advance. repeat (split; [assumption|]).
    intros Hx. now apply He. }
  exists streams', w', ev.
  split; [exact Hrun|]. split; [now apply (Forall2_advance_tracking Hadv)|].
  split; [exact Hadv|].
  intros k h Hin Hx Hcall.
  destruct (Hev _ Hcall) as (k1 & h1 & h1' & ev1 & Hin1 & Hpass & He1).
  destruct Htr as (Hnd & Hfiled & _).
  destruct Hpass as (_ & _ & _ & _ & He & Hown).
  assert (Hk : k = k1).
  { rewrite (Hown _ He1). rewrite Forall_forall in Hfiled.
    exact (Hfiled _ Hin1). }
  subst k1. assert (Hh : h1 = h) by (eapply NoDup_keys_functional; eassumption).
  subst h1.
  destruct (He Hx) as [_ Hno]. exact (Hno _ He1).
Qed.

Lemma monitor_streams_run (n : nat) :
  forall (streams : dict FFmpegProcess) (w : World os),
    tracking streams ->
    exists streams' w' ev,
      monitor_streams n (streams, w) = (Ok tt, (streams', w'), ev) /\
      tracking streams' /\
      Forall2 advance streams streams' /\
      (forall k h, In (k, h) streams ->
                   max_restarts h <= restart_count h ->
                   ~ In (Call_start k) ev).
Proof.
  induction n as [|n IH]; intros streams w Htr.
  - exists streams, w, []. split; [reflexivity|]. split; [exact Htr|].
    split; [apply Forall2_advance_refl|]. intros k h _ _ [].
  - destruct (monitor_tick_step w Htr) as (s1 & w1 & ev1 & Ht & Htr1 & Ha1 & Hno1).
    destruct (IH s1 (os_sleep os 5 w1) Htr1)
      as (s2 & w2 & ev2 & Hr & Htr2 & Ha2 & Hno2).
    exists s2, w2, (ev1 ++ ev2).
    split.
    { simpl. unfold bind at 1. rewrite Ht.
      unfold bind at 1. unfold sleep at 1. simpl. rewrite Hr. reflexivity. }
    split; [exact Htr2|].
    split; [eapply Forall2_advance_trans; eassumption|].
    intros k h Hin Hx Hcall. apply in_app_or in Hcall.
    destruct Hcall as [Hcall|Hcall].
    + exact (Hno1 _ _ Hin Hx Hcall).
    + refine (Hno2 k h _ Hx Hcall).
      eapply Forall2_advance_exhausted; eassumption.
Qed.

End Ticks.

(** C4.  The rule of a pass, for the stream [k] with handle [h].  If the
    handle is not alive and its counter is below the bound, the pass sets
    the counter to one more and then calls [start] once, on the handle with
    the new counter; whatever boolean [start] returns, the counter stays
    one more than before.  If the handle is alive, the pass leaves it as it
    is and emits nothing: no [start].  And a pass over the tracking map
    never raises and applies this to every entry in turn, in the mapping's
    order, in the world the entries before it have left. *)
Theorem tick_transition_rule (os : OS) (k : string) (h : FFmpegProcess) :
  (forall w w1 : World os,
     is_alive (h, w) = (Ok false, (h, w1), []) ->
     restart_count h < max_restarts h ->
     exists b h' w2 ev,
       start (with_restart_count (restart_count h + 1) h, w1) =
         (Ok b, (h', w2), Call_start (name (config h)) :: ev) /\
       (forall n, ~ In (Call_start n) ev) /\
       monitor_stream k (h, w) =
         (Ok tt, (h', w2),
          Log WARNING (Stream_has_died k)
            :: Call_start (name (config h)) :: ev) /\
       restart_count h' = restart_count h + 1) /\
  (forall w w1 : World os,
     is_alive (h, w) = (Ok true, (h, w1), []) ->
     monitor_stream k (h, w) = (Ok tt, (h, w1), [])) /\
  (forall (before after : dict FFmpegProcess) (w : World os),
     exists before' w1 ev1 h' w2 ev2 after' w3 ev3,
       for_items (@monitor_stream os) before w = (Ok tt, (before', w1), ev1) /\
       monitor_stream k (h, w1) = (Ok tt, (h', w2), ev2) /\
       for_items (@monitor_stream os) after w2 = (Ok tt, (after', w3), ev3) /\
       monitor_tick (before ++ (k, h) :: after, w) =
         (Ok tt, (before' ++ (k, h') :: after', w3), ev1 ++ ev2 ++ ev3) /\
       keys before' = keys before /\ keys after' = keys after).
Proof.
  split; [|split].
  - intros w w1 Ha Hlt.
    destruct (monitor_stream_restart k _ Ha Hlt)
      as (b & h' & w2 & ev & Hs & Hno & Hm & Hrc & _).
    exists b, h', w2, ev. auto.
  - intros w w1 Ha. now apply monitor_stream_alive.
  - intros before after w.
    destruct (for_items_returns (@monitor_stream os) pass_effect
                (@monitor_stream_effect os) before w)
      as (before' & w1 & ev1 & Hb & _ & _).
    destruct (monitor_stream_effect os k h w1) as (h' & w2 & ev2 & Hm & _).
    destruct (for_items_returns (@monitor_stream os) pass_effect
                (@monitor_stream_effect os) after w2)
      as (after' & w3 & ev3 & Ha & _ & _).
    exists before', w1, ev1, h', w2, ev2, after', w3, ev3.
    split; [exact Hb|]. split; [exact Hm|]. split; [exact Ha|].
    split; [|split; eapply for_items_keys; eassumption].
    unfold monitor_tick, for_streams; simpl.
    rewrite for_items_app, Hb. simpl. rewrite Hm, Ha. reflexivity.
Qed.

Lemma tick_transition_rule_witness :
  (exists b h' w2 ev,
     @start scripted
       (with_restart_count (restart_count (running cam1 7) + 1) (running cam1 7),
        quiet) =
       (Ok b, (h', w2), Call_start "cam1" :: ev) /\
     (forall n, ~ In (Call_start n) ev) /\
     @monitor_stream scripted "cam1" (running cam1 7, quiet) =
       (Ok tt, (h', w2),
        Log WARNING (Stream_has_died "cam1") :: Call_start "cam1" :: ev) /\
     restart_count h' = restart_count (running cam1 7) + 1) /\
  @monitor_stream scripted "cam1" (running cam1 7, alive_once) =
    (Ok tt, (running cam1 7, quiet), []).
Proof.
  destruct (tick_transition_rule scripted "cam1" (running cam1 7))
    as (Hdead & Halive & _).
  split.
  - apply (Hdead quiet quiet); [reflexivity|simpl; lia].
  - apply (Halive alive_once quiet). reflexivity.
Defined.

(** ** Shutdown *)

Section Shutdown.

Variable os : OS.

(** Every [stop] leaves exactly one entry mark; one that returns has
    cleared the reference, one that raises has changed nothing. *)
Lemma stop_effect (h h' : FFmpegProcess) (w w' : World os) r ev :
  stop (h, w) = (r, (h', w'), ev) ->
  filter is_Call_stop ev = [Call_stop (name (config h))] /\
  config h' = config h /\
  match r with
  | Ok _ => process h' = None
  | Raise _ => h' = h
  end.
Proof.
  rewrite stop_equation; cbv zeta.
  destruct (process h) as [p|] eqn:Hp.
  - destruct (os_terminate os p w) as [[[]|e] w1].
    + destruct (os_wait os p 5 w1) as [[rc|e] w2].
      * intros H; inversion H; subst. now repeat split.
      * destruct (is_TimeoutExpired e).
        -- destruct (os_kill os p w2) as [[[]|e'] w3];
             intros H; inversion H; subst; now repeat split.
        -- intros H; inversion H; subst. now repeat split.
    + intros H; inversion H; subst. now repeat split.
  - intros H; inversion H; subst. now repeat split.
Qed.

Lemma stop_loop_returns (l : dict FFmpegProcess) :
  forall (w : World os) l' w' ev,
    for_items (fun _ => @stop os) l w = (Ok tt, (l', w'), ev) ->
    filter is_Call_stop ev =
      map (fun kh => Call_stop (name (config (snd kh)))) l /\
    Forall (fun kh => process (snd kh) = None) l'.
Proof.
  induction l as [|[k h] l IH]; simpl; intros w l' w' ev H.
  - inversion H; subst. split; [reflexivity|constructor].
  - destruct (stop (h, w)) as [[[[]|e] [h1 w1]] ev1] eqn:Hs; [|discriminate].
    destruct (for_items (fun _ => @stop os) l w1) as [[r2 [l2 w2]] ev2] eqn:Hl.
    inversion H; subst.
    pose proof Hs as Hs'. apply stop_effect in Hs'.
    destruct Hs' as (Hev1 & _ & Hp).
    destruct (IH _ _ _ _ Hl) as (Hev2 & HF).
    split.
    + now rewrite filter_app, Hev1, Hev2.
    + constructor; [exact Hp|exact HF].
Qed.

Lemma stop_returns_without_errors (h : FFmpegProcess) (w : World os) :
  only_timeouts os ->
  exists h' w' ev, stop (h, w) = (Ok tt, (h', w'), ev) /\ True.
Proof.
  intros (Hterm & Hkill & Hwait).
  rewrite stop_equation; cbv zeta.
  destruct (process h) as [p|]; [|repeat eexists].
  specialize (Hterm p w).
  destruct (os_terminate os p w) as [rt w1]. simpl in Hterm. subst rt.
  specialize (Hwait p 5 w1).
  destruct (os_wait os p 5 w1) as [rw w2]. simpl in Hwait.
  destruct Hwait as [[rc ->]| ->]; [repeat eexists|].
  simpl. specialize (Hkill p w2).
  destruct (os_kill os p w2) as [rk w3]. simpl in Hkill. subst rk.
  repeat eexists.
Qed.

(** The handler leaves by [sys.exit(0)] when [cleanup] returns, and by
    the exception of [cleanup] when it raises. *)
Lemma _signal_handler_equation (signum : Z) (s : MState os) :
  _signal_handler signum s =
  match cleanup s with
  | (Ok _, s', ev) =>
      (SystemExit 0, s', Log INFO (Received_signal signum) :: ev)
  | (Raise e, s', ev) =>
      (Uncaught e, s', Log INFO (Received_signal signum) :: ev)
  end.
Proof.
  unfold _signal_handler, bind at 1, emit at 1.
  destruct (cleanup s) as [[[[]|e] s'] ev]; reflexivity.
Qed.

End Shutdown.

(** C3, as the code has it.  [cleanup] calls [stop] on the tracked handles
    in the mapping's order.  When it returns, [stop] has been called once on
    every handle, in that order, no handle holds a process reference, and the
    signal handler leaves by [sys.exit(0)].  It returns whenever the system
    calls of [stop] fail by nothing but the timeout of the wait, which [stop]
    answers with a kill.  When the [stop] of one stream raises, [cleanup]
    stops there: the exception leaves the handler in place of the exit, and
    the streams after that one are as they were, with no [stop] called on
    them. *)
Theorem cleanup_stops_in_order (os : OS) (signum : Z)
  (streams : dict FFmpegProcess) (w : World os) :
  (forall streams' w' ev,
     cleanup (streams, w) = (Ok tt, (streams', w'), ev) ->
     filter is_Call_stop ev =
       map (fun kh => Call_stop (name (config (snd kh)))) streams /\
     keys streams' = keys streams /\
     Forall (fun kh => process (snd kh) = None) streams' /\
     _signal_handler signum (streams, w) =
       (SystemExit 0, (streams', w'), Log INFO (Received_signal signum) :: ev)) /\
  (only_timeouts os ->
   exists streams' w' ev,
     cleanup (streams, w) = (Ok tt, (streams', w'), ev)) /\
  (forall before k h after before' w1 ev1 e h' w2 ev2,
     streams = before ++ (k, h) :: after ->
     for_items (fun _ => @stop os) before w = (Ok tt, (before', w1), ev1) ->
     stop (h, w1) = (Raise e, (h', w2), ev2) ->
     cleanup (streams, w) =
       (Raise e, (before' ++ (k, h) :: after, w2),
        Log INFO Cleaning_up_streams :: ev1 ++ ev2) /\
     _signal_handler signum (streams, w) =
       (Uncaught e, (before' ++ (k, h) :: after, w2),
        Log INFO (Received_signal signum)
          :: Log INFO Cleaning_up_streams :: ev1 ++ ev2)).
Proof.
  split; [|split].
  - intros streams' w' ev Hc.
    assert (Hloop : exists ev0,
              ev = Log INFO Cleaning_up_streams :: ev0 /\
              for_items (fun _ => @stop os) streams w = (Ok tt, (streams', w'), ev0)).
    { unfold cleanup, bind, emit, for_streams in Hc; simpl in Hc.
      destruct (for_items (fun _ => @stop os) streams w) as [[r [l' w0]] ev0].
      inversion Hc; subst. eexists; split; reflexivity. }
    destruct Hloop as (ev0 & -> & Hloop).
    pose proof Hloop as Hloop'. apply stop_loop_returns in Hloop'.
    destruct Hloop' as (Hev & HF).
    split; [exact Hev|]. split; [eapply for_items_keys; exact Hloop|].
    split; [exact HF|].
    rewrite _signal_handler_equation, Hc. reflexivity.
  - intros Hos.
    destruct (for_items_returns (fun _ => @stop os) (fun _ _ _ _ => True)
                (fun _ h w0 => @stop_returns_without_errors os h w0 Hos) streams w)
      as (streams' & w' & ev & Hrun & _).
    exists streams', w'. eexists.
    unfold cleanup, bind, emit, for_streams; simpl. rewrite Hrun. reflexivity.
  - intros before k h after before' w1 ev1 e h' w2 ev2 -> Hb Hs.
    pose proof Hs as Hs'. apply stop_effect in Hs'.
    destruct Hs' as (_ & _ & ->).
    assert (Hc : cleanup (before ++ (k, h) :: after, w) =
       (Raise e, (before' ++ (k, h) :: after, w2),
        Log INFO Cleaning_up_streams :: ev1 ++ ev2)).
    { unfold cleanup, bind, emit, for_streams; simpl.
      rewrite for_items_app, Hb. simpl. rewrite Hs. reflexivity. }
    split; [exact Hc|].
    rewrite _signal_handler_equation. unfold dict in *. rewrite Hc. reflexivity.
Qed.

Lemma patient_only_timeouts : only_timeouts patient.
Proof.
  split; [|split]; try reflexivity.
  intros p t w. simpl. destruct w as [|[] w]; simpl; eauto.
Defined.

Lemma cleanup_stops_in_order_witness :
  (exists streams' w' ev,
     @cleanup patient (three_streams, [false; true; false]) =
       (Ok tt, (streams', w'), ev) /\
     filter is_Call_stop ev =
       [Call_stop "cam1"; Call_stop "cam2"; Call_stop "cam3"] /\
     Forall (fun kh => process (snd kh) = None) streams' /\
     @_signal_handler patient 15 (three_streams, [false; true; false]) =
       (SystemExit 0, (streams', w'), Log INFO (Received_signal 15) :: ev)) /\
  @_signal_handler scripted 15 (three_streams, refusing) =
    (Uncaught (OSError "Operation not permitted"), (three_streams, quiet),
     Log INFO (Received_signal 15) :: Log INFO Cleaning_up_streams
       :: [] ++ [Call_stop "cam1"; Log INFO (Stopping_stream "cam1")]).
Proof.
  split.
  - destruct (cleanup_stops_in_order patient 15 three_streams
                [false; true; false]) as (Hret & Hsafe & _).
    destruct (Hsafe patient_only_timeouts) as (streams' & w' & ev & Hc).
    destruct (Hret _ _ _ Hc) as (Hev & _ & Hnone & Hexit).
    exists streams', w', ev. auto.
  - destruct (cleanup_stops_in_order scripted 15 three_streams refusing)
      as (_ & _ & Hraise).
    apply (Hraise [] "cam1" (running cam1 1)
             [("cam2", running cam2 2); ("cam3", running cam3 3)]
             [] refusing [] (OSError "Operation not permitted")
             (running cam1 1) quiet
             [Call_stop "cam1"; Log INFO (Stopping_stream "cam1")]);
      reflexivity.
Defined.

(** The claim C3 fails where the [stop] of a stream raises.  Three streams
    run; the [terminate] of the first is refused.  The handler calls [stop]
    on the first stream only, the other two keep their processes, and the
    exception leaves the handler: [sys.exit(0)] is not reached. *)
Lemma cleanup_abandons_remaining_streams :
  @_signal_handler scripted 15 (three_streams, refusing) =
    (Uncaught (OSError "Operation not permitted"), (three_streams, quiet),
     [Log INFO (Received_signal 15); Log INFO Cleaning_up_streams;
      Call_stop "cam1"; Log INFO (Stopping_stream "cam1")]) /\
  dict_get three_streams "cam2" = Some (running cam2 2) /\
  dict_get three_streams "cam3" = Some (running cam3 3).
Proof. repeat split. Qed.

(** ** Startup *)

Lemma dict_set_keys {V : Type} (d : dict V) k v k' :
  In k' (keys (dict_set d k v)) <-> k' = k \/ In k' (keys d).
Proof.
  induction d as [|[k0 v0] d IH]; simpl.
  - intuition.
  - destruct (String.eqb_spec k0 k) as [->|Hne]; simpl.
    + intuition.
    + rewrite IH. intuition.
Qed.

Lemma dict_set_NoDup {V : Type} (d : dict V) k v :
  NoDup (keys d) -> NoDup (keys (dict_set d k v)).
Proof.
  induction d as [|[k0 v0] d IH]; simpl; intros Hnd.
  - repeat constructor. intros [].
  - inversion Hnd as [|? ? Hnotin Hnd']; subst.
    destruct (String.eqb_spec k0 k) as [->|Hne]; simpl.
    + constructor; assumption.
    + constructor; [|auto]. rewrite dict_set_keys. intuition.
Qed.

Lemma dict_set_Forall {V : Type} (P : string * V -> Prop) (d : dict V) k v :
  Forall P d -> P (k, v) -> Forall P (dict_set d k v).
Proof.
  induction d as [|[k0 v0] d IH]; simpl; intros HF HP.
  - repeat constructor. exact HP.
  - inversion HF; subst.
    destruct (String.eqb_spec k0 k) as [->|Hne]; constructor; auto.
Qed.

Lemma dict_set_get {V : Type} (d : dict V) k v :
  dict_get (dict_set d k v) k = Some v.
Proof.
  induction d as [|[k0 v0] d IH]; simpl.
  - now rewrite String.eqb_refl.
  - destruct (String.eqb_spec k0 k) as [->|Hne]; simpl.
    + now rewrite String.eqb_refl.
    + destruct (String.eqb_spec k0 k); [contradiction|exact IH].
Qed.

(** A declaration that parses into a supported type is well-formed, and a
    well-formed one parses. *)
Lemma parse_stream_well_formed raw cfg :
  parse_stream raw = Ok cfg ->
  raw_name raw = Some (name cfg) /\
  (supported (type cfg) = true -> well_formed raw = true).
Proof.
  unfold parse_stream, well_formed, getitem.
  destruct (raw_name raw) as [nm|]; [|discriminate].
  destruct (raw_type raw) as [ty|]; [|discriminate].
  destruct (StreamType_getitem (upper ty)) as [t|e]; [|discriminate].
  destruct (raw_input raw) as [inp|]; [|discriminate].
  destruct (raw_output_path raw) as [out|]; [|discriminate].
  intros H; inversion H; subst; simpl. auto.
Qed.

Lemma well_formed_parse raw :
  well_formed raw = true ->
  exists cfg, parse_stream raw = Ok cfg /\ supported (type cfg) = true.
Proof.
  unfold parse_stream, well_formed, getitem.
  destruct (raw_name raw) as [nm|]; [|discriminate].
  destruct (raw_type raw) as [ty|]; [|discriminate].
  destruct (raw_input raw) as [inp|]; [|discriminate].
  destruct (raw_output_path raw) as [out|]; [|discriminate].
  destruct (StreamType_getitem (upper ty)) as [t|e]; [|discriminate].
  intros H. eexists; split; [reflexivity|exact H].
Qed.

Section Startup.

Variable os : OS.
Variable server : string.

(** The loop body on a declaration that parses: the handle is registered
    exactly when its [start] returns [True]. *)
Lemma start_stream_parsed raw cfg (streams : dict FFmpegProcess)
  (w w' : World os) b h' ev :
  parse_stream raw = Ok cfg ->
  start (FFmpegProcess_init cfg server, w) = (Ok b, (h', w'), ev) ->
  start_stream server raw (streams, w) =
    (Ok tt, ((if b then dict_set streams (name cfg) h' else streams), w'), ev).
Proof.
  intros Hp Hs.
  unfold start_stream, try_except, bind, of_result, on_local, streams_setitem,
    ret; simpl.
  rewrite Hp, Hs. simpl. destruct b; simpl; now rewrite !app_nil_r.
Qed.

(** On a declaration that does not parse but has a name: an error record,
    and the next declaration. *)
Lemma start_stream_malformed raw e nm (streams : dict FFmpegProcess)
  (w : World os) :
  parse_stream raw = Raise e ->
  raw_name raw = Some nm ->
  start_stream server raw (streams, w) =
    (Ok tt, (streams, w), [Log ERROR (Failed_to_start_stream nm e)]).
Proof.
  intros Hp Hn.
  unfold start_stream, try_except, bind, of_result, on_local, emit, getitem;
    simpl.
  now rewrite Hp, Hn.
Qed.

(** On a declaration without a name, the lookup in the handler raises in
    its turn, and the exception leaves the loop. *)
Lemma start_stream_nameless raw (streams : dict FFmpegProcess) (w : World os) :
  raw_name raw = None ->
  start_stream server raw (streams, w) =
    (Raise (KeyError "name"), (streams, w), []).
Proof.
  intros Hn.
  unfold start_stream, try_except, bind, of_result, on_local, emit; simpl.
  unfold parse_stream. rewrite Hn. reflexivity.
Qed.

Lemma start_stream_keeps streams_config raw (s s' : MState os) r ev :
  In raw streams_config ->
  started_map server streams_config (fst s) ->
  start_stream server raw s = (r, s', ev) ->
  started_map server streams_config (fst s').
Proof.
  destruct s as [streams w]. intros Hin Hinv Hrun.
  destruct (parse_stream raw) as [cfg|e] eqn:Hp.
  - destruct (start_returns os (FFmpegProcess_init cfg server) w)
      as (b & h' & w' & ev' & Hs).
    rewrite (@start_stream_parsed raw cfg streams w w' b h' ev' Hp Hs) in Hrun.
    inversion Hrun; subst; clear Hrun.
    destruct b; [|exact Hinv].
    pose proof Hs as Hs'. rewrite start_equation in Hs'; cbv zeta in Hs'.
    simpl in Hs'.
    destruct (_build_command server cfg) as [command|e] eqn:Hb;
      [|discriminate].
    destruct (os_Popen os command w) as [[p|e] w1]; [|discriminate].
    inversion Hs'; subst; clear Hs'.
    assert (Hsup : supported (type cfg) = true).
    { unfold _build_command, type_args in Hb.
      destruct (type cfg); try reflexivity; discriminate. }
    destruct Hinv as ((Hnd & Hfiled & Hbound) & Hreg). simpl in *.
    split; [split; [|split]|]; simpl.
    + now apply dict_set_NoDup.
    + apply dict_set_Forall; [exact Hfiled|reflexivity].
    + apply dict_set_Forall; [exact Hbound|].
      unfold within_bound; simpl; lia.
    + apply dict_set_Forall; [exact Hreg|].
      exists raw, cfg, p. simpl.
      destruct (@parse_stream_well_formed raw cfg Hp) as [_ Hwf]. auto.
  - destruct (raw_name raw) as [nm|] eqn:Hn.
    + rewrite (@start_stream_malformed raw e nm streams w Hp Hn) in Hrun.
      inversion Hrun; subst. exact Hinv.
    + rewrite (@start_stream_nameless raw streams w Hn) in Hrun.
      inversion Hrun; subst. exact Hinv.
Qed.

Lemma start_all_streams_keeps streams_config (l : list RawStream) :
  incl l streams_config ->
  forall (s s' : MState os) r ev,
    started_map server streams_config (fst s) ->
    for_each l (start_stream server) s = (r, s', ev) ->
    started_map server streams_config (fst s').
Proof.
  induction l as [|raw l IH]; intros Hincl s s' r ev Hinv Hrun.
  - inversion Hrun; subst. exact Hinv.
  - simpl in Hrun. unfold bind in Hrun.
    destruct (start_stream server raw s) as [[r1 s1] ev1] eqn:H1.
    assert (Hinv1 : started_map server streams_config (fst s1)).
    { eapply start_stream_keeps; [|exact Hinv|exact H1].
      apply Hincl. now left. }
    destruct r1 as [[]|e].
    + destruct (for_each l (start_stream server) s1) as [[r2 s2] ev2] eqn:H2.
      inversion Hrun; subst.
      eapply IH; [|exact Hinv1|exact H2].
      intros x Hx. apply Hincl. now right.
    + inversion Hrun; subst. exact Hinv1.
Qed.

End Startup.

(** The claim C1 fails where the first [start] fails.  The declaration of
    [cam1] is well-formed; the spawn fails; [start_all_streams] returns with
    an empty tracking map, and the monitoring loop, which goes over the
    tracked streams only, never starts [cam1]. *)
Lemma failed_start_is_not_tracked :
  well_formed cam1_raw = true /\
  (exists ev,
     @start_all_streams scripted mediamtx [cam1_raw] ([], quiet) =
       (Ok tt, ([], quiet), ev) /\
     In (Log ERROR (Failed_to_start_stream "cam1"
                      (OSError "No such file or directory: ffmpeg"))) ev) /\
  dict_get (@nil (string * FFmpegProcess)) "cam1" = None /\
  @monitor_streams scripted 3 ([], quiet) = (Ok tt, ([], quiet), []).
Proof.
  split; [reflexivity|]. split; [|split; reflexivity].
  eexists. split; [reflexivity|]. simpl. tauto.
Qed.

(** A declaration without a name is not skipped: the handler of the loop
    looks the name up for its message, that lookup raises, and
    [start_all_streams] is left before the declarations that follow are
    started. *)
Remark nameless_declaration_aborts_startup :
  @start_all_streams scripted mediamtx [nameless_raw; cam1_raw]
    ([], spawning 1) =
  (Raise (KeyError "name"), ([], spawning 1), []).
Proof. reflexivity. Qed.

(** ** The bound on restarts *)

(** C2.  The tracking map that [start_all_streams] builds has unique keys,
    every handle filed under its stream's name, and every counter within its
    bound.  From such a map, any number of passes of the monitoring loop
    returns (the loop goes on over all the streams), and afterwards the map
    is such a map again: the same streams, every counter still within its
    bound.  A stream whose counter has reached the bound keeps its handle
    exactly as it was, counter included, and [start] is not called on it in
    any of the passes. *)
Theorem restart_count_bounded (os : OS) :
  (forall server streams_config (w0 : World os) r streams w ev0,
     start_all_streams server streams_config ([], w0) = (r, (streams, w), ev0) ->
     tracking streams) /\
  (forall (n : nat) (streams : dict FFmpegProcess) (w : World os),
     tracking streams ->
     exists streams' w' ev,
       monitor_streams n (streams, w) = (Ok tt, (streams', w'), ev) /\
       tracking streams' /\
       keys streams' = keys streams /\
       Forall (fun kh => restart_count (snd kh) <= max_restarts (snd kh))
         streams' /\
       forall k h,
         In (k, h) streams ->
         restart_count h = max_restarts h ->
         dict_get streams' k = Some h /\ ~ In (Call_start k) ev).
Proof.
  split.
  - intros server streams_config w0 r streams w ev0 Hrun.
    change streams with (fst (streams, w)).
    refine (proj1 (start_all_streams_keeps (@incl_refl _ streams_config)
                     ([], w0) _ Hrun)).
    simpl. repeat split; constructor.
  - intros n streams w Htr.
    destruct (monitor_streams_run os n w Htr)
      as (streams' & w' & ev & Hrun & Htr' & Hadv & Hno).
    exists streams', w', ev.
    split; [exact Hrun|]. split; [exact Htr'|].
    split; [now apply Forall2_advance_keys|].
    split; [exact (proj2 (proj2 Htr'))|].
    intros k h Hin Hx. split.
    + apply In_dict_get; [exact (proj1 Htr')|].
      eapply Forall2_advance_exhausted; [eassumption..|lia].
    + apply (Hno k h Hin). lia.
Qed.

Lemma one_exhausted_tracking : tracking one_exhausted.
Proof.
  split; [|split].
  - repeat constructor; simpl; intuition discriminate.
  - repeat constructor.
  - repeat constructor; unfold within_bound; simpl; lia.
Defined.

Lemma restart_count_bounded_witness :
  tracking [("cam1", running cam1 41)] /\
  exists streams' w' ev,
    @monitor_streams scripted 3 (one_exhausted, quiet) =
      (Ok tt, (streams', w'), ev) /\
    Forall (fun kh => restart_count (snd kh) <= max_restarts (snd kh))
      streams' /\
    dict_get streams' "cam1" = Some (with_restart_count 5 (running cam1 1)) /\
    ~ In (Call_start "cam1") ev.
Proof.
  destruct (restart_count_bounded scripted) as (Hstart & Hloop).
  split.
  - apply (Hstart mediamtx [cam1_raw] (spawning 41) (Ok tt) _ quiet
             [Call_start "cam1"; Log INFO (Starting_stream "cam1");
              Log DEBUG (Command (String.concat " "
                (["ffmpeg"; "-re"; "-stream_loop"; "-1"; "-i"; "/media/loop.mp4"]
                   ++ transcode_args
                   ++ ["-f"; "rtsp"; "rtsp://mediamtx:8554/cam1/stream"])))]).
    reflexivity.
  - destruct (Hloop 3%nat one_exhausted quiet one_exhausted_tracking)
      as (streams' & w' & ev & Hrun & _ & _ & Hbound & Hx).
    exists streams', w', ev. split; [exact Hrun|]. split; [exact Hbound|].
    apply Hx; [left; reflexivity|reflexivity].
Defined.

(** * Further properties of the code *)

(** ** Declarations *)

Lemma StreamType_getitem_Ok (s : string) (t : StreamType) :
  StreamType_getitem s = Ok t <-> s = StreamType_name t.
Proof.
  split.
  - unfold StreamType_getitem.
    repeat match goal with
           | |- context [String.eqb s ?n] =>
               destruct (String.eqb_spec s n) as [->|]
           end;
      intros H; inversion H; reflexivity.
  - intros ->. destruct t; reflexivity.
Qed.

(** X1.  The lookup [StreamType[s]] succeeds exactly on the names of the
    five members, each name giving back its member; on any other string it
    raises [KeyError] with that string. *)
Theorem StreamType_getitem_names (s : string) :
  (forall t, StreamType_getitem s = Ok t <-> s = StreamType_name t) /\
  ((forall t, s <> StreamType_name t) ->
   StreamType_getitem s = Raise (KeyError s)).
Proof.
  split; [intros t; apply StreamType_getitem_Ok|].
  - intros Hno. unfold StreamType_getitem.
    repeat match goal with
           | |- context [String.eqb s ?n] =>
               destruct (String.eqb_spec s n) as [->|]
           end; try reflexivity.
    + exfalso; exact (Hno FILE eq_refl).
    + exfalso; exact (Hno RTSP eq_refl).
    + exfalso; exact (Hno RTMP eq_refl).
    + exfalso; exact (Hno HLS eq_refl).
    + exfalso; exact (Hno UDP eq_refl).
Qed.

Lemma StreamType_getitem_names_witness :
  StreamType_getitem "WEBRTC" = Raise (KeyError "WEBRTC").
Proof.
  apply (proj2 (StreamType_getitem_names "WEBRTC")).
  intros t; destruct t; discriminate.
Defined.

Lemma ascii_upper_idempotent (c : ascii) :
  ascii_upper (ascii_upper c) = ascii_upper c.
Proof.
  destruct c as [[] [] [] [] [] [] [] []]; reflexivity.
Qed.

Lemma upper_idempotent (s : string) : upper (upper s) = upper s.
Proof.
  induction s as [|c s IH]; simpl; [reflexivity|].
  now rewrite ascii_upper_idempotent, IH.
Qed.

(** X2.  The source type of a declaration is read without regard to case:
    two declarations that differ only in the case of [type] parse to the
    same result, and so does a declaration and the one with its [type] in
    upper case. *)
Theorem parse_stream_type_case (raw : RawStream) (ty ty' : string) :
  (upper ty = upper ty' ->
   parse_stream (with_raw_type ty raw) = parse_stream (with_raw_type ty' raw)) /\
  parse_stream (with_raw_type (upper ty) raw) =
    parse_stream (with_raw_type ty raw).
Proof.
  assert (H : forall a b, upper a = upper b ->
            parse_stream (with_raw_type a raw) =
            parse_stream (with_raw_type b raw)).
  { intros a b Hab. unfold parse_stream, with_raw_type; simpl.
    now rewrite Hab. }
  split; [apply H|]. apply H. apply upper_idempotent.
Qed.

Lemma parse_stream_type_case_witness :
  parse_stream (with_raw_type "File" cam1_raw) =
  parse_stream (with_raw_type "fILE" cam1_raw).
Proof.
  apply (proj1 (parse_stream_type_case cam1_raw "File" "fILE")). reflexivity.
Defined.

(** X3.  A declaration whose [type], if it has one, is ASCII parses
    exactly when the keys [name], [type], [input] and [output_path] are
    present and the upper-cased [type] is the name of a member of the
    enumeration; the configuration then carries the values of the
    declaration, [options] included, which never make the parse fail. *)
Theorem parse_stream_succeeds_iff (raw : RawStream) (cfg : StreamConfig) :
  ascii_typed raw = true ->
  (parse_stream raw = Ok cfg <->
   (raw_name raw = Some (name cfg) /\
    (exists ty,
       raw_type raw = Some ty /\ upper ty = StreamType_name (type cfg)) /\
    raw_input raw = Some (input cfg) /\
    raw_output_path raw = Some (output_path cfg) /\
    raw_options raw = options cfg)).
Proof.
  intros _. unfold parse_stream, getitem. split.
  - destruct (raw_name raw) as [nm|]; [|discriminate].
    destruct (raw_type raw) as [ty|]; [|discriminate].
    destruct (StreamType_getitem (upper ty)) as [t|e] eqn:Ht; [|discriminate].
    destruct (raw_input raw) as [inp|]; [|discriminate].
    destruct (raw_output_path raw) as [out|]; [|discriminate].
    intros H; inversion H; subst; simpl.
    repeat split; try reflexivity.
    exists ty. split; [reflexivity|].
    now apply StreamType_getitem_Ok.
  - intros (Hn & (ty & Hty & Hup) & Hi & Ho & Hopts).
    rewrite Hn, Hty, Hi, Ho, Hopts.
    apply StreamType_getitem_Ok in Hup.
    rewrite Hup. now destruct cfg.
Qed.

Lemma parse_stream_succeeds_iff_witness : parse_stream cam1_raw = Ok cam1.
Proof.
  apply (proj2 (parse_stream_succeeds_iff cam1_raw cam1 eq_refl)).
  repeat split. exists "file". split; reflexivity.
Defined.

(** ** Startup, declaration by declaration *)

Lemma for_each_app {S A : Type} (body : A -> M S unit) (l1 l2 : list A) (s : S) :
  for_each (l1 ++ l2) body s =
  match for_each l1 body s with
  | (Ok _, s1, ev1) =>
      match for_each l2 body s1 with
      | (r, s2, ev2) => (r, s2, ev1 ++ ev2)
      end
  | (Raise e, s1, ev1) => (Raise e, s1, ev1)
  end.
Proof.
  revert s. induction l1 as [|x l1 IH]; intros s; simpl.
  - unfold ret. destruct (for_each l2 body s) as [[r s2] ev2]. reflexivity.
  - unfold bind. destruct (body x s) as [[[[]|e] s1] ev1]; [|reflexivity].
    rewrite IH.
    destruct (for_each l1 body s1) as [[[[]|e] s1'] ev1']; [|reflexivity].
    destruct (for_each l2 body s1') as [[r s2] ev2].
    now rewrite app_assoc.
Qed.

Lemma dict_set_present_keys {V : Type} (d : dict V) k v old :
  dict_get d k = Some old -> keys (dict_set d k v) = keys d.
Proof.
  induction d as [|[k0 v0] d IH]; simpl; [discriminate|].
  destruct (String.eqb_spec k0 k) as [->|Hne]; simpl; [reflexivity|].
  intros H. now rewrite IH.
Qed.

Lemma dict_set_get_other {V : Type} (d : dict V) k v k' :
  k' <> k -> dict_get (dict_set d k v) k' = dict_get d k'.
Proof.
  intros Hne. induction d as [|[k0 v0] d IH]; simpl.
  - destruct (String.eqb_spec k k'); [congruence|reflexivity].
  - destruct (String.eqb_spec k0 k) as [->|Hk]; simpl.
    + destruct (String.eqb_spec k k'); [congruence|reflexivity].
    + destruct (String.eqb_spec k0 k'); [reflexivity|exact IH].
Qed.

Lemma StreamType_getitem_Raise (s : string) (e : exn) :
  StreamType_getitem s = Raise e -> e = KeyError s.
Proof.
  unfold StreamType_getitem.
  repeat match goal with
         | |- context [String.eqb s ?n] =>
             destruct (String.eqb s n); [discriminate|]
         end.
  congruence.
Qed.

Section Declarations.

Variable os : OS.
Variable server : string.

(** [start] on a handle whose source type has no template: no spawn. *)
Lemma start_unsupported (h : FFmpegProcess) (w : World os) :
  supported (type (config h)) = false ->
  start (h, w) =
    (Ok false, (h, w),
     [Call_start (name (config h));
      Log ERROR (Failed_to_start_stream (name (config h))
                   (UnsupportedSourceType (type (config h))))]).
Proof.
  intros Hs. rewrite start_equation; cbv zeta.
  unfold _build_command, type_args, UnsupportedSourceType.
  destruct (type (config h)); try discriminate Hs; reflexivity.
Qed.

(** The loop body returns on every declaration that has a name. *)
Lemma start_stream_named raw (s : MState os) :
  has_name raw = true ->
  exists s' ev, start_stream server raw s = (Ok tt, s', ev).
Proof.
  unfold has_name. destruct (raw_name raw) as [nm|] eqn:Hn; [|discriminate].
  intros _. destruct s as [streams w].
  destruct (parse_stream raw) as [cfg|e] eqn:Hp.
  - destruct (start_returns os (FFmpegProcess_init cfg server) w)
      as (b & h' & w' & ev & Hs).
    rewrite (@start_stream_parsed os server raw cfg streams w w' b h' ev Hp Hs).
    eauto.
  - rewrite (@start_stream_malformed os server raw e nm streams w Hp Hn).
    eauto.
Qed.

Lemma start_all_streams_named (l : list RawStream) :
  forallb has_name l = true ->
  forall s : MState os,
    exists s' ev, start_all_streams server l s = (Ok tt, s', ev).
Proof.
  unfold start_all_streams.
  induction l as [|raw l IH]; simpl; intros Hall s.
  - unfold ret. eauto.
  - apply andb_prop in Hall. destruct Hall as [Hraw Hl].
    destruct (start_stream_named raw s Hraw) as (s1 & ev1 & H1).
    destruct (IH Hl s1) as (s2 & ev2 & H2).
    unfold bind. rewrite H1, H2. eauto.
Qed.

Lemma start_all_streams_nameless (before after : list RawStream) raw
  (s : MState os) :
  forallb has_name before = true ->
  raw_name raw = None ->
  exists s1 ev1,
    start_all_streams server before s = (Ok tt, s1, ev1) /\
    start_all_streams server (before ++ raw :: after) s =
      (Raise (KeyError "name"), s1, ev1).
Proof.
  intros Hb Hn.
  destruct (start_all_streams_named before Hb s) as (s1 & ev1 & H1).
  exists s1, ev1. split; [exact H1|].
  unfold start_all_streams in *. rewrite for_each_app, H1. simpl.
  unfold bind. destruct s1 as [streams1 w1].
  rewrite (@start_stream_nameless os server raw streams1 w1 Hn).
  now rewrite app_nil_r.
Qed.

End Declarations.


(** X4.  A declaration that has a name and an ASCII [type] but does not
    parse is skipped: the loop body returns, nothing is spawned (the world is
    as before), the tracking map is as before, and the one record logged
    carries the [KeyError] of the first thing that is missing, in the order
    in which the declaration is read: the key [type]; the upper-cased type,
    if it names no member of the enumeration; the key [input]; the key
    [output_path]. *)
Theorem start_stream_skips_malformed (os : OS) (server : string)
  (raw : RawStream) (nm : string) (streams : dict FFmpegProcess) (w : World os) :
  raw_name raw = Some nm ->
  ascii_typed raw = true ->
  (forall cfg, parse_stream raw <> Ok cfg) ->
  exists key,
    start_stream server raw (streams, w) =
      (Ok tt, (streams, w),
       [Log ERROR (Failed_to_start_stream nm (KeyError key))]) /\
    match raw_type raw with
    | None => key = "type"
    | Some ty =>
        ((forall t, upper ty <> StreamType_name t) -> key = upper ty) /\
        (forall t,
           upper ty = StreamType_name t ->
           match raw_input raw with
           | None => key = "input"
           | Some _ => raw_output_path raw = None /\ key = "output_path"
           end)
    end.
Proof.
  intros Hn _ Hno.
  destruct (parse_stream raw) as [cfg|e] eqn:Hp; [now elim (Hno cfg)|].
  rewrite (@start_stream_malformed os server raw e nm streams w Hp Hn).
  unfold parse_stream, getitem in Hp. rewrite Hn in Hp.
  destruct (raw_type raw) as [ty|];
    [|inversion Hp; exists "type"; auto].
  destruct (StreamType_getitem (upper ty)) as [t|e0] eqn:Ht.
  - apply StreamType_getitem_Ok in Ht.
    destruct (raw_input raw) as [inp|].
    + destruct (raw_output_path raw) as [out|]; [discriminate|].
      inversion Hp. exists "output_path". split; [reflexivity|]. split.
      * intros Hnone. now elim (Hnone t).
      * intros t' _. now split.
    + inversion Hp. exists "input". split; [reflexivity|]. split.
      * intros Hnone. now elim (Hnone t).
      * intros t' _. reflexivity.
  - pose proof Ht as Hraise. apply StreamType_getitem_Raise in Hraise.
    inversion Hp; subst. exists (upper ty). split; [reflexivity|]. split.
    + intros _. reflexivity.
    + intros t' Ht'. apply StreamType_getitem_Ok in Ht'. congruence.
Qed.

Lemma start_stream_skips_malformed_witness :
  exists key,
    @start_stream scripted mediamtx webrtc_raw ([], spawning 1) =
      (Ok tt, ([], spawning 1),
       [Log ERROR (Failed_to_start_stream "cam8" (KeyError key))]) /\
    key = "WEBRTC".
Proof.
  destruct (@start_stream_skips_malformed scripted mediamtx webrtc_raw
              "cam8" [] (spawning 1) eq_refl eq_refl)
    as (key & Hrun & Hkey).
  - intros cfg. discriminate.
  - exists key. split; [exact Hrun|].
    apply (proj1 Hkey). intros t; destruct t; discriminate.
Defined.

(** X5.  A declaration of type [hls] or [udp] parses, but its handle is
    never spawned and never tracked: [start] finds no template, so the loop
    body returns with the world and the tracking map as before, having
    logged the unsupported-type error. *)
Theorem start_stream_skips_unsupported (os : OS) (server : string)
  (raw : RawStream) (cfg : StreamConfig)
  (streams : dict FFmpegProcess) (w : World os) :
  parse_stream raw = Ok cfg ->
  supported (type cfg) = false ->
  start_stream server raw (streams, w) =
    (Ok tt, (streams, w),
     [Call_start (name cfg);
      Log ERROR (Failed_to_start_stream (name cfg)
                   (UnsupportedSourceType (type cfg)))]).
Proof.
  intros Hp Hs.
  pose proof (@start_unsupported os (FFmpegProcess_init cfg server) w Hs) as Hst.
  simpl in Hst.
  now rewrite (@start_stream_parsed os server raw cfg streams w w false _ _
                 Hp Hst).
Qed.

Lemma start_stream_skips_unsupported_witness :
  @start_stream scripted mediamtx hls_raw ([], spawning 1) =
    (Ok tt, ([], spawning 1),
     [Call_start "cam9";
      Log ERROR (Failed_to_start_stream "cam9" (UnsupportedSourceType HLS))]).
Proof.
  apply (@start_stream_skips_unsupported scripted mediamtx hls_raw
           (mkStreamConfig "cam9" HLS "http://10.0.0.9/live.m3u8"
              "cam9/stream" None) [] (spawning 1));
    reflexivity.
Defined.


(** X7.  A declaration without [name] ends the startup: the
    [KeyError('name')] raised in the handler leaves [start_all_streams]; the
    declarations before it have been processed, those after it are not
    looked at, and the state and the log are those the declarations before
    it have left. *)
Theorem start_all_streams_stops_at_nameless (os : OS) (server : string)
  (before after : list RawStream) (raw : RawStream) (s : MState os) :
  forallb has_name before = true ->
  raw_name raw = None ->
  exists s1 ev1,
    start_all_streams server before s = (Ok tt, s1, ev1) /\
    start_all_streams server (before ++ raw :: after) s =
      (Raise (KeyError "name"), s1, ev1).
Proof.
  intros Hb Hn. now apply start_all_streams_nameless.
Qed.

Lemma start_all_streams_stops_at_nameless_witness :
  exists s1 ev1,
    @start_all_streams scripted mediamtx [cam1_raw] ([], spawning 1) =
      (Ok tt, s1, ev1) /\
    @start_all_streams scripted mediamtx ([cam1_raw] ++ nameless_raw :: [hls_raw])
      ([], spawning 1) =
      (Raise (KeyError "name"), s1, ev1).
Proof.
  apply (@start_all_streams_stops_at_nameless scripted mediamtx
           [cam1_raw] [hls_raw] nameless_raw ([], spawning 1));
    reflexivity.
Defined.

(** X8.  A second declaration under a name already tracked replaces the
    handle of the first: after its successful [start] the tracking map has
    the same keys in the same order, the name now leads to the new handle
    with the new process, and every other name leads where it led.  The
    earlier handle, with the process it holds, is no longer reachable from
    the name. *)
Theorem start_stream_replaces_same_name (os : OS) (server : string)
  (raw : RawStream) (cfg : StreamConfig) (command : list string)
  (streams : dict FFmpegProcess) (old : FFmpegProcess)
  (w w' : World os) (p : Popen) :
  parse_stream raw = Ok cfg ->
  _build_command server cfg = Ok command ->
  os_Popen os command w = (Ok p, w') ->
  dict_get streams (name cfg) = Some old ->
  exists streams' ev,
    start_stream server raw (streams, w) = (Ok tt, (streams', w'), ev) /\
    keys streams' = keys streams /\
    dict_get streams' (name cfg) =
      Some (with_process (Some p) (FFmpegProcess_init cfg server)) /\
    forall k, k <> name cfg -> dict_get streams' k = dict_get streams k.
Proof.
  intros Hp Hb Hspawn Hold.
  pose proof (start_equation os (FFmpegProcess_init cfg server) w) as Hs.
  cbv zeta in Hs. simpl in Hs. rewrite Hb, Hspawn in Hs.
  eexists. eexists. split.
  - rewrite (@start_stream_parsed os server raw cfg streams w w' _ _ _ Hp Hs).
    reflexivity.
  - split; [eapply dict_set_present_keys; exact Hold|].
    split; [apply dict_set_get|].
    intros k Hk. now apply dict_set_get_other.
Qed.

Lemma start_stream_replaces_same_name_witness :
  exists streams' ev,
    @start_stream scripted mediamtx cam1_raw
      ([("cam1", running cam1 1); ("cam2", running cam2 2)], spawning 7) =
      (Ok tt, (streams', quiet), ev) /\
    keys streams' = ["cam1"; "cam2"] /\
    dict_get streams' (name cam1) = Some (running cam1 7) /\
    forall k, k <> name cam1 ->
      dict_get streams' k =
      dict_get [("cam1", running cam1 1); ("cam2", running cam2 2)] k.
Proof.
  eapply (@start_stream_replaces_same_name scripted mediamtx cam1_raw
            cam1 _ [("cam1", running cam1 1); ("cam2", running cam2 2)]
            (running cam1 1) (spawning 7) quiet (mkPopen 7));
    reflexivity.
Defined.


(** ** Counting restarts *)

Lemma starts_of_app k (a b : list event) :
  starts_of k (a ++ b) = (starts_of k a + starts_of k b)%nat.
Proof.
  induction a as [|e a IH]; simpl; [reflexivity|].
  destruct e as [lvl msg|n|n]; try exact IH.
  destruct (String.eqb n k); simpl; now rewrite IH.
Qed.

Lemma starts_of_none k (ev : list event) :
  (forall n, ~ In (Call_start n) ev) -> starts_of k ev = O.
Proof.
  induction ev as [|e ev IH]; simpl; intros Hno; [reflexivity|].
  destruct e as [lvl msg|n|n].
  - apply IH. intros n Hin. apply (Hno n). now right.
  - exfalso. apply (Hno n). now left.
  - apply IH. intros n' Hin. apply (Hno n'). now right.
Qed.

Lemma restarts_used_untracked k (l : dict FFmpegProcess) :
  Forall filed_by_name l -> ~ In k (keys l) -> restarts_used k l = 0.
Proof.
  induction l as [|[k0 h0] l IH]; simpl; intros Hf Hk; [reflexivity|].
  inversion Hf as [|? ? Hf0 Hfl]; subst. unfold filed_by_name in Hf0.
  simpl in Hf0. rewrite Hf0.
  destruct (String.eqb_spec k0 k) as [->|Hne]; [tauto|].
  rewrite IH; auto.
Qed.

Lemma restarts_used_tracked k h (l : dict FFmpegProcess) :
  NoDup (keys l) -> Forall filed_by_name l -> In (k, h) l ->
  restarts_used k l = restart_count h.
Proof.
  induction l as [|[k0 h0] l IH]; simpl; intros Hnd Hf Hin; [contradiction|].
  inversion Hnd as [|? ? Hnotin Hnd']; subst.
  inversion Hf as [|? ? Hf0 Hfl]; subst. unfold filed_by_name in Hf0.
  simpl in Hf0. rewrite Hf0. destruct Hin as [Heq|Hin].
  - injection Heq as -> ->. rewrite String.eqb_refl.
    rewrite restarts_used_untracked; auto. lia.
  - destruct (String.eqb_spec k0 k) as [->|Hne].
    + exfalso. apply Hnotin. eapply In_keys; exact Hin.
    + rewrite IH; auto.
Qed.

Lemma Forall2_advance_In l l' k h :
  Forall2 advance l l' -> In (k, h) l ->
  exists h', In (k, h') l' /\ advance (k, h) (k, h').
Proof.
  induction 1 as [|kh kh' l l' Ha _ IH]; simpl; intros Hin; [contradiction|].
  destruct Hin as [->|Hin].
  - destruct kh' as [k' h']. exists h'.
    assert (Hk : k' = k) by apply Ha. subst k'. auto.
  - destruct (IH Hin) as (h' & Hin' & Hadv). eauto.
Qed.

Section Counting.

Variable os : OS.

(** One pass over one handle calls [start] on the handle's own stream as
    many times as the counter goes up: once or not at all. *)
Lemma monitor_stream_starts k0 (h : FFmpegProcess) (w : World os) :
  exists h' w' ev,
    monitor_stream k0 (h, w) = (Ok tt, (h', w'), ev) /\
    config h' = config h /\
    forall k,
      Z.of_nat (starts_of k ev) =
      if String.eqb (name (config h)) k
      then restart_count h' - restart_count h else 0.
Proof.
  destruct (is_alive_returns os h w) as (b & w1 & Ha). destruct b.
  - exists h, w1, []. split; [now apply monitor_stream_alive|].
    split; [reflexivity|]. intros k. simpl.
    destruct (String.eqb (name (config h)) k); lia.
  - destruct (Z.lt_ge_cases (restart_count h) (max_restarts h)) as [Hlt|Hge].
    + destruct (monitor_stream_restart k0 _ Ha Hlt)
        as (b & h' & w2 & ev & _ & Hno & Hm & Hrc & _ & Hcfg).
      exists h', w2. eexists. split; [exact Hm|]. split; [exact Hcfg|].
      intros k. simpl. rewrite (starts_of_none k ev Hno).
      destruct (String.eqb (name (config h)) k); lia.
    + exists h, w1. eexists.
      split; [apply monitor_stream_exhausted; [exact Ha|lia]|].
      split; [reflexivity|]. intros k. simpl.
      destruct (String.eqb (name (config h)) k); lia.
Qed.

Lemma monitor_tick_starts (l : dict FFmpegProcess) :
  forall w : World os,
    exists l' w' ev,
      monitor_tick (l, w) = (Ok tt, (l', w'), ev) /\
      forall k,
        Z.of_nat (starts_of k ev) = restarts_used k l' - restarts_used k l.
Proof.
  unfold monitor_tick, for_streams; simpl.
  induction l as [|[k0 h] l IH]; intros w; simpl.
  - exists [], w, []. split; [reflexivity|]. intros k. reflexivity.
  - destruct (monitor_stream_starts k0 h w) as (h' & w1 & ev1 & Hm & Hcfg & Hc).
    destruct (IH w1) as (l2 & w2 & ev2 & Hl & Hcl).
    rewrite Hm, Hl. exists ((k0, h') :: l2), w2, (ev1 ++ ev2).
    split; [reflexivity|]. intros k. simpl.
    rewrite starts_of_app, Nat2Z.inj_add, Hc, Hcl, Hcfg.
    destruct (String.eqb (name (config h)) k); lia.
Qed.

Lemma monitor_streams_starts (n : nat) :
  forall (l : dict FFmpegProcess) (w : World os),
    exists l' w' ev,
      monitor_streams n (l, w) = (Ok tt, (l', w'), ev) /\
      forall k,
        Z.of_nat (starts_of k ev) = restarts_used k l' - restarts_used k l.
Proof.
  induction n as [|n IH]; intros l w.
  - exists l, w, []. split; [reflexivity|]. intros k. simpl. lia.
  - destruct (monitor_tick_starts l w) as (l1 & w1 & ev1 & Ht & Hc1).
    destruct (IH l1 (os_sleep os 5 w1)) as (l2 & w2 & ev2 & Hr & Hc2).
    exists l2, w2, (ev1 ++ ev2). split.
    + simpl. unfold bind at 1. rewrite Ht.
      unfold bind at 1. unfold sleep at 1. simpl. rewrite Hr. reflexivity.
    + intros k. rewrite starts_of_app, Nat2Z.inj_add, Hc1, Hc2. lia.
Qed.

End Counting.

(** X9.  Over any number of passes of the monitoring loop, [start] is
    called on a tracked stream exactly as many times as its counter goes up,
    and so at most [max_restarts - restart_count] times: the bound on
    restarts is a bound for the whole life of the handle, not one that a
    successful restart renews. *)
Theorem restarts_are_counted (os : OS) (n : nat)
  (streams : dict FFmpegProcess) (w : World os) (k : string) (h : FFmpegProcess) :
  tracking streams ->
  In (k, h) streams ->
  exists streams' w' ev h',
    monitor_streams n (streams, w) = (Ok tt, (streams', w'), ev) /\
    dict_get streams' k = Some h' /\
    Z.of_nat (starts_of k ev) = restart_count h' - restart_count h /\
    Z.of_nat (starts_of k ev) <= max_restarts h - restart_count h.
Proof.
  intros Htr Hin.
  destruct (monitor_streams_run os n w Htr)
    as (streams' & w' & ev & Hrun & Htr' & Hadv & _).
  destruct (monitor_streams_starts os n streams w)
    as (l' & w2 & ev2 & Hrun2 & Hcount).
  rewrite Hrun in Hrun2. inversion Hrun2; subst l' w2 ev2; clear Hrun2.
  destruct (@Forall2_advance_In streams streams' k h Hadv Hin)
    as (h' & Hin' & Ha).
  exists streams', w', ev, h'.
  destruct Htr as (Hnd & Hfiled & _).
  destruct Htr' as (Hnd' & Hfiled' & Hbound').
  split; [exact Hrun|]. split; [now apply In_dict_get|].
  assert (Hc : Z.of_nat (starts_of k ev) = restart_count h' - restart_count h).
  { rewrite Hcount.
    rewrite (@restarts_used_tracked k h' streams' Hnd' Hfiled' Hin').
    now rewrite (@restarts_used_tracked k h streams Hnd Hfiled Hin). }
  split; [exact Hc|]. rewrite Hc.
  rewrite Forall_forall in Hbound'. specialize (Hbound' _ Hin').
  unfold within_bound in Hbound'. simpl in Hbound'.
  destruct Ha as (_ & _ & Hmax & _). simpl in Hmax. lia.
Qed.

Lemma restarts_are_counted_witness :
  exists streams' w' ev h',
    @monitor_streams scripted 9 (three_streams, quiet) =
      (Ok tt, (streams', w'), ev) /\
    dict_get streams' "cam2" = Some h' /\
    Z.of_nat (starts_of "cam2" ev) =
      restart_count h' - restart_count (running cam2 2) /\
    Z.of_nat (starts_of "cam2" ev) <=
      max_restarts (running cam2 2) - restart_count (running cam2 2).
Proof.
  apply (@restarts_are_counted scripted 9 three_streams quiet "cam2"
           (running cam2 2)).
  - split; [|split].
    + repeat constructor; simpl; intuition discriminate.
    + repeat constructor.
    + repeat constructor; unfold within_bound; simpl; lia.
  - right; left; reflexivity.
Defined.

(** ** What the passes change and what they leave *)

Lemma Forall2_compose {A : Type} (R1 R2 R3 : A -> A -> Prop) :
  (forall a b c, R1 a b -> R2 b c -> R3 a c) ->
  forall l1 l2 l3,
    Forall2 R1 l1 l2 -> Forall2 R2 l2 l3 -> Forall2 R3 l1 l3.
Proof.
  intros Hc l1. induction l1 as [|a l1 IH]; intros l2 l3 H12 H23;
    inversion H12; subst; inversion H23; subst; constructor; eauto.
Qed.

Section Passes.

Variable os : OS.

Lemma start_settings (h h' : FFmpegProcess) (w w' : World os) r ev :
  start (h, w) = (r, (h', w'), ev) ->
  same_settings h h' /\ restart_count h' = restart_count h.
Proof.
  rewrite start_equation; cbv zeta.
  destruct (_build_command (rtsp_server h) (config h)) as [command|e].
  - destruct (os_Popen os command w) as [[p|e] w1];
      intros H; inversion H; subst; unfold same_settings; simpl; tauto.
  - intros H; inversion H; subst; unfold same_settings; tauto.
Qed.

Lemma monitor_stream_settings k (h : FFmpegProcess) (w : World os) :
  exists h' w' ev,
    monitor_stream k (h, w) = (Ok tt, (h', w'), ev) /\ same_settings h h'.
Proof.
  destruct (is_alive_returns os h w) as (b & w1 & Ha). destruct b.
  - exists h, w1, []. split; [now apply monitor_stream_alive|].
    unfold same_settings; tauto.
  - destruct (Z.lt_ge_cases (restart_count h) (max_restarts h)) as [Hlt|Hge].
    + destruct (monitor_stream_restart k _ Ha Hlt)
        as (b & h' & w2 & ev & Hs & _ & Hm & _).
      exists h', w2. eexists. split; [exact Hm|].
      apply start_settings in Hs. destruct Hs as [Hs _].
      unfold same_settings in *; simpl in Hs. exact Hs.
    + exists h, w1. eexists.
      split; [apply monitor_stream_exhausted; [exact Ha|lia]|].
      unfold same_settings; tauto.
Qed.

Lemma monitor_tick_settings (l : dict FFmpegProcess) (w : World os) :
  exists l' w' ev,
    monitor_tick (l, w) = (Ok tt, (l', w'), ev) /\
    Forall2 (fun kh kh' =>
               fst kh' = fst kh /\ same_settings (snd kh) (snd kh')) l l'.
Proof.
  destruct (for_items_returns (@monitor_stream os)
              (fun _ h h' _ => same_settings h h')
              monitor_stream_settings l w)
    as (l' & w' & ev & Hrun & HF & _).
  exists l', w', ev. split; [exact Hrun|].
  eapply Forall2_impl; [|exact HF]. simpl.
  intros kh kh' (Hk & _ & Hs). auto.
Qed.

(** With every polled process exited, a pass takes every counter one step
    closer to its bound. *)
Lemma monitor_stream_dead k (h : FFmpegProcess) (w : World os) :
  always_exited os ->
  exists h' w' ev,
    monitor_stream k (h, w) = (Ok tt, (h', w'), ev) /\
    max_restarts h' = max_restarts h /\
    (restart_count h <= max_restarts h ->
     restart_count h' = Z.min (max_restarts h) (restart_count h + 1)).
Proof.
  intros Hdead.
  assert (Ha : exists w1, is_alive (h, w) = (Ok false, (h, w1), [])).
  { rewrite is_alive_equation. destruct (process h) as [p|]; [|eauto].
    specialize (Hdead p w).
    destruct (os_poll os p w) as [[rc|] w1]; [eauto|].
    simpl in Hdead. congruence. }
  destruct Ha as (w1 & Ha).
  destruct (Z.lt_ge_cases (restart_count h) (max_restarts h)) as [Hlt|Hge].
  - destruct (monitor_stream_restart k _ Ha Hlt)
      as (b & h' & w2 & ev & _ & _ & Hm & Hrc & Hmax & _).
    exists h', w2. eexists. split; [exact Hm|]. split; [exact Hmax|]. lia.
  - exists h, w1. eexists.
    split; [apply monitor_stream_exhausted; [exact Ha|lia]|].
    split; [reflexivity|]. lia.
Qed.

End Passes.

(** X10.  No pacing between restarts: when every poll finds the process
    exited, each pass of the loop restarts every stream that is below its
    bound, so after [n] passes the counter of a stream is the smaller of its
    bound and its old value plus [n].  Neither [restart_interval] nor
    [last_restart] delays an attempt. *)
Theorem restarts_are_not_paced (os : OS) (n : nat)
  (streams : dict FFmpegProcess) (w : World os) :
  always_exited os ->
  Forall (fun kh => within_bound (snd kh)) streams ->
  exists streams' w' ev,
    monitor_streams n (streams, w) = (Ok tt, (streams', w'), ev) /\
    Forall2 (fun kh kh' =>
               fst kh' = fst kh /\
               restart_count (snd kh') =
                 Z.min (max_restarts (snd kh))
                       (restart_count (snd kh) + Z.of_nat n))
      streams streams'.
Proof.
  intros Hdead Hbound.
  assert (Hgen : forall n (l : dict FFmpegProcess) (w : World os),
    exists l' w' ev,
      monitor_streams n (l, w) = (Ok tt, (l', w'), ev) /\
      Forall2 (fun kh kh' =>
                 fst kh' = fst kh /\
                 max_restarts (snd kh') = max_restarts (snd kh) /\
                 (restart_count (snd kh) <= max_restarts (snd kh) ->
                  restart_count (snd kh') =
                    Z.min (max_restarts (snd kh))
                          (restart_count (snd kh) + Z.of_nat n))) l l').
  { clear n streams w Hbound. induction n as [|n IH]; intros l w.
    - exists l, w, []. split; [reflexivity|].
      induction l; constructor; auto.
      split; [reflexivity|]. split; [reflexivity|]. lia.
    - destruct (for_items_returns (@monitor_stream os)
                  (fun _ h h' _ =>
                     max_restarts h' = max_restarts h /\
                     (restart_count h <= max_restarts h ->
                      restart_count h' =
                        Z.min (max_restarts h) (restart_count h + 1)))
                  (fun k h w0 => @monitor_stream_dead os k h w0 Hdead) l w)
        as (l1 & w1 & ev1 & Ht & HF1 & _).
      destruct (IH l1 (os_sleep os 5 w1)) as (l2 & w2 & ev2 & Hr & HF2).
      exists l2, w2, (ev1 ++ ev2). split.
      + simpl. unfold bind at 1. unfold monitor_tick, for_streams. simpl.
        rewrite Ht. unfold bind at 1. unfold sleep at 1. simpl.
        rewrite Hr. reflexivity.
      + eapply Forall2_compose; [|exact HF1|exact HF2]. simpl.
        intros a b c (Hk1 & _ & Hm1 & Hr1) (Hk2 & Hm2 & Hr2).
        split; [congruence|]. split; [congruence|].
        intros Hle. specialize (Hr1 Hle).
        rewrite Hm1 in Hr2. rewrite Hr2 by lia. rewrite Hr1. lia. }
  destruct (Hgen n streams w) as (streams' & w' & ev & Hrun & HF).
  exists streams', w', ev. split; [exact Hrun|].
  clear Hrun. induction HF as [|kh kh' l l' Hh _ IH]; [constructor|].
  inversion Hbound; subst. constructor; [|auto].
  destruct Hh as (Hk & _ & Hr). split; [exact Hk|]. now apply Hr.
Qed.

Lemma patient_always_exited : always_exited patient.
Proof. intros p w. simpl. discriminate. Defined.

Lemma restarts_are_not_paced_witness :
  exists streams' w' ev,
    @monitor_streams patient 3 (three_streams, []) =
      (Ok tt, (streams', w'), ev) /\
    Forall2 (fun kh kh' =>
               fst kh' = fst kh /\
               restart_count (snd kh') =
                 Z.min (max_restarts (snd kh))
                       (restart_count (snd kh) + Z.of_nat 3))
      three_streams streams'.
Proof.
  apply (@restarts_are_not_paced patient 3 three_streams []
           patient_always_exited).
  repeat constructor; unfold within_bound; simpl; lia.
Defined.

(** X11.  The passes of the monitoring loop change nothing in a handle
    but its process reference and its counter: after any number of passes
    the tracking map has the same keys in the same order, and every handle
    has the configuration, server, [max_restarts], [last_restart] and
    [restart_interval] it had. *)
Theorem passes_keep_settings (os : OS) (n : nat) :
  forall (streams : dict FFmpegProcess) (w : World os),
    exists streams' w' ev,
      monitor_streams n (streams, w) = (Ok tt, (streams', w'), ev) /\
      Forall2 (fun kh kh' =>
                 fst kh' = fst kh /\ same_settings (snd kh) (snd kh'))
        streams streams'.
Proof.
  induction n as [|n IH]; intros l w.
  - exists l, w, []. split; [reflexivity|].
    induction l; constructor; auto. unfold same_settings. tauto.
  - destruct (monitor_tick_settings os l w) as (l1 & w1 & ev1 & Ht & HF1).
    destruct (IH l1 (os_sleep os 5 w1)) as (l2 & w2 & ev2 & Hr & HF2).
    exists l2, w2, (ev1 ++ ev2). split.
    + simpl. unfold bind at 1. rewrite Ht.
      unfold bind at 1. unfold sleep at 1. simpl. rewrite Hr. reflexivity.
    + eapply Forall2_compose; [|exact HF1|exact HF2]. simpl.
      unfold same_settings.
      intros a b c (Hk1 & H1) (Hk2 & H2).
      split; [congruence|]. intuition congruence.
Qed.

(** ** The handle, further *)

(** X12.  [start] returns [True] exactly when the builder has a command
    for the handle and the spawn of that very command succeeds; the handle
    then holds the process just spawned, in place of any earlier one, and is
    otherwise as it was. *)
Theorem start_succeeds_iff (os : OS) (h h' : FFmpegProcess) (w w' : World os) :
  (exists ev, start (h, w) = (Ok true, (h', w'), ev)) <->
  (exists command p,
     _build_command (rtsp_server h) (config h) = Ok command /\
     os_Popen os command w = (Ok p, w') /\
     h' = with_process (Some p) h).
Proof.
  rewrite start_equation; cbv zeta. split.
  - intros (ev & H).
    destruct (_build_command (rtsp_server h) (config h)) as [command|e];
      [|discriminate].
    destruct (os_Popen os command w) as [[p|e] w1] eqn:Hp; [|discriminate].
    inversion H; subst. exists command, p. repeat split. exact Hp.
  - intros (command & p & Hb & Hp & ->). rewrite Hb, Hp. eauto.
Qed.

Lemma start_succeeds_iff_witness :
  exists ev,
    @start scripted (running cam1 1, spawning 7) =
      (Ok true, (running cam1 7, quiet), ev).
Proof.
  apply (proj2 (@start_succeeds_iff scripted (running cam1 1) (running cam1 7)
                  (spawning 7) quiet)).
  eexists. exists (mkPopen 7). repeat split.
Defined.

(** ** The command builder, further *)

(** X13.  In every command the builder returns, the first [-i] is followed
    by the declared input: options are placed after the template, so an
    option, whatever its key, cannot come before the input of the
    declaration. *)
Theorem first_input_is_declared (server : string) (c : StreamConfig)
  (command : list string) :
  _build_command server c = Ok command ->
  value_of_first "-i" command = Some (input c).
Proof.
  unfold _build_command, type_args.
  destruct (type c); try discriminate;
    destruct (option_args (options c)); try discriminate;
    intros H; inversion H; reflexivity.
Qed.

Lemma first_input_is_declared_witness :
  exists command,
    _build_command mediamtx
      (with_options (Some [(SStr "i", SStr "/etc/passwd")]) cam3) =
      Ok command /\
    value_of_first "-i" command = Some "rtmp://10.0.0.8/live".
Proof.
  eexists. split; [reflexivity|].
  apply (@first_input_is_declared mediamtx
           (with_options (Some [(SStr "i", SStr "/etc/passwd")]) cam3)).
  reflexivity.
Defined.

(** ** Shutdown, further *)

Section Idle.

Variable os : OS.

Lemma stop_returned (h h' : FFmpegProcess) (w w' : World os) ev :
  stop (h, w) = (Ok tt, (h', w'), ev) -> h' = with_process None h.
Proof.
  rewrite stop_equation; cbv zeta.
  destruct (process h) as [p|] eqn:Hp.
  - destruct (os_terminate os p w) as [[[]|e] w1]; [|discriminate].
    destruct (os_wait os p 5 w1) as [[rc|e] w2].
    + intros H; now inversion H.
    + destruct (is_TimeoutExpired e); [|discriminate].
      destruct (os_kill os p w2) as [[[]|e'] w3]; [|discriminate].
      intros H; now inversion H.
  - intros H; inversion H; subst. destruct h'; simpl in *. now subst.
Qed.

Lemma stop_loop_clears (l : dict FFmpegProcess) :
  forall (w : World os) l' w' ev,
    for_items (fun _ => @stop os) l w = (Ok tt, (l', w'), ev) ->
    l' = map cleared l.
Proof.
  induction l as [|[k h] l IH]; simpl; intros w l' w' ev H.
  - now inversion H.
  - destruct (stop (h, w)) as [[[[]|e] [h1 w1]] ev1] eqn:Hs; [|discriminate].
    destruct (for_items (fun _ => @stop os) l w1) as [[r2 [l2 w2]] ev2] eqn:Hl.
    inversion H; subst. apply stop_returned in Hs. subst h1.
    unfold cleared at 1. simpl. f_equal. eapply IH; exact Hl.
Qed.

Lemma stop_loop_idle (l : dict FFmpegProcess) (w : World os) :
  Forall (fun kh => process (snd kh) = None) l ->
  for_items (fun _ => @stop os) l w = (Ok tt, (l, w), stop_marks l).
Proof.
  induction 1 as [|[k h] l Hp _ IH]; simpl; [reflexivity|].
  rewrite stop_equation; cbv zeta. simpl in Hp. rewrite Hp.
  unfold stop_marks in IH. rewrite IH. reflexivity.
Qed.

End Idle.

(** X14.  A [cleanup] that returns has changed nothing in the tracking map
    but the process references: the map afterwards is the map before with
    every reference cleared, in the same order; names, configurations and
    restart counters are kept. *)
Theorem cleanup_clears_references (os : OS)
  (streams streams' : dict FFmpegProcess) (w w' : World os) ev :
  cleanup (streams, w) = (Ok tt, (streams', w'), ev) ->
  streams' = map cleared streams.
Proof.
  intros Hc. unfold cleanup, bind, emit, for_streams in Hc; simpl in Hc.
  destruct (for_items (fun _ => @stop os) streams w) as [[r [l' w0]] ev0] eqn:Hl.
  inversion Hc; subst. eapply stop_loop_clears; exact Hl.
Qed.

Lemma cleanup_clears_references_witness :
  exists ev,
    @cleanup scripted (one_exhausted, stubborn) =
      (Ok tt, (map cleared one_exhausted, quiet), ev).
Proof.
  assert (H : exists streams' ev,
            @cleanup scripted (one_exhausted, stubborn) =
              (Ok tt, (streams', quiet), ev))
    by (eexists; eexists; reflexivity).
  destruct H as (streams' & ev & H). exists ev.
  now rewrite <- (@cleanup_clears_references scripted one_exhausted streams'
                    stubborn quiet ev H).
Defined.

(** X15.  Where no tracked handle holds a process reference, [cleanup]
    touches nothing: whatever the operating system would answer, it makes no
    call to it, leaves the tracking map as it is, and the signal handler
    exits with status 0.  This is the case after a [cleanup] that has
    returned: a second one right after it is this no-op. *)
Theorem cleanup_twice (os : OS) (signum : Z)
  (streams : dict FFmpegProcess) (w : World os) :
  (Forall (fun kh => process (snd kh) = None) streams ->
   cleanup (streams, w) =
     (Ok tt, (streams, w), Log INFO Cleaning_up_streams :: stop_marks streams) /\
   _signal_handler signum (streams, w) =
     (SystemExit 0, (streams, w),
      Log INFO (Received_signal signum)
        :: Log INFO Cleaning_up_streams :: stop_marks streams)) /\
  (forall streams' w' ev,
     cleanup (streams, w) = (Ok tt, (streams', w'), ev) ->
     cleanup (streams', w') =
       (Ok tt, (streams', w'),
        Log INFO Cleaning_up_streams :: stop_marks streams')).
Proof.
  assert (Hidle : forall (l : dict FFmpegProcess) (w0 : World os),
            Forall (fun kh => process (snd kh) = None) l ->
            cleanup (l, w0) =
              (Ok tt, (l, w0), Log INFO Cleaning_up_streams :: stop_marks l)).
  { intros l w0 Hl. unfold cleanup, bind, emit, for_streams; simpl.
    now rewrite (@stop_loop_idle os l w0 Hl). }
  split.
  - intros Hnone. split; [now apply Hidle|].
    rewrite _signal_handler_equation, (Hidle _ _ Hnone). reflexivity.
  - intros streams' w' ev Hc. apply Hidle.
    unfold cleanup, bind, emit, for_streams in Hc; simpl in Hc.
    destruct (for_items (fun _ => @stop os) streams w)
      as [[r [l' w0]] ev0] eqn:Hl.
    inversion Hc; subst. apply stop_loop_returns in Hl. apply Hl.
Qed.

Lemma cleanup_twice_witness :
  @_signal_handler scripted SIGINT (map cleared three_streams, refusing) =
    (SystemExit 0, (map cleared three_streams, refusing),
     Log INFO (Received_signal SIGINT)
       :: Log INFO Cleaning_up_streams
       :: stop_marks (map cleared three_streams)) /\
  @cleanup scripted (map cleared three_streams, quiet) =
    (Ok tt, (map cleared three_streams, quiet),
     Log INFO Cleaning_up_streams :: stop_marks (map cleared three_streams)).
Proof.
  split.
  - apply (proj1 (@cleanup_twice scripted SIGINT (map cleared three_streams)
                    refusing)).
    repeat constructor.
  - apply (proj2 (@cleanup_twice scripted SIGINT three_streams quiet)
             (map cleared three_streams) quiet
             (Log INFO Cleaning_up_streams
                :: [Call_stop "cam1"; Log INFO (Stopping_stream "cam1");
                    Call_stop "cam2"; Log INFO (Stopping_stream "cam2");
                    Call_stop "cam3"; Log INFO (Stopping_stream "cam3")])).
    reflexivity.
Defined.

(** ** The entry point *)

Lemma manager_events_app (a b : list main_event) :
  manager_events (a ++ b) = manager_events a ++ manager_events b.
Proof.
  induction a as [|e a IH]; simpl; [reflexivity|].
  destruct e; simpl; now rewrite IH.
Qed.

Lemma manager_events_map (ev : list event) :
  manager_events (map Manager_event ev) = ev.
Proof.
  induction ev as [|e ev IH]; simpl; [reflexivity|]. now rewrite IH.
Qed.

Section EntryPoint.

Variable os : OS.
Variable server : string.

Lemma start_never_stops (h h' : FFmpegProcess) (w w' : World os) r ev :
  start (h, w) = (r, (h', w'), ev) -> forall k, ~ In (Call_stop k) ev.
Proof.
  rewrite start_equation; cbv zeta.
  destruct (_build_command (rtsp_server h) (config h)) as [command|e].
  - destruct (os_Popen os command w) as [[p|e] w1];
      intros H; inversion H; subst; intros k Hin; simpl in Hin;
      intuition discriminate.
  - intros H; inversion H; subst; intros k Hin; simpl in Hin;
      intuition discriminate.
Qed.

Lemma start_stream_never_stops raw (s s' : MState os) r ev :
  start_stream server raw s = (r, s', ev) -> forall k, ~ In (Call_stop k) ev.
Proof.
  destruct s as [streams w]. intros Hrun.
  destruct (parse_stream raw) as [cfg|e] eqn:Hp.
  - destruct (start_returns os (FFmpegProcess_init cfg server) w)
      as (b & h' & w' & ev' & Hs).
    rewrite (@start_stream_parsed os server raw cfg streams w w' b h' ev' Hp Hs)
      in Hrun.
    inversion Hrun; subst. eapply start_never_stops; exact Hs.
  - destruct (raw_name raw) as [nm|] eqn:Hn.
    + rewrite (@start_stream_malformed os server raw e nm streams w Hp Hn)
        in Hrun.
      inversion Hrun; subst. intros k Hin; simpl in Hin; intuition discriminate.
    + rewrite (@start_stream_nameless os server raw streams w Hn) in Hrun.
      inversion Hrun; subst. intros k [].
Qed.

Lemma start_all_streams_never_stops (l : list RawStream) :
  forall (s s' : MState os) r ev,
    start_all_streams server l s = (r, s', ev) ->
    forall k, ~ In (Call_stop k) ev.
Proof.
  unfold start_all_streams.
  induction l as [|raw l IH]; simpl; intros s s' r ev Hrun k Hin.
  - inversion Hrun; subst. destruct Hin.
  - unfold bind in Hrun.
    destruct (start_stream server raw s) as [[r1 s1] ev1] eqn:H1.
    destruct r1 as [[]|e].
    + destruct (for_each l (start_stream server) s1) as [[r2 s2] ev2] eqn:H2.
      inversion Hrun; subst. apply in_app_or in Hin. destruct Hin as [Hin|Hin].
      * eapply start_stream_never_stops; eassumption.
      * eapply IH; eassumption.
    + inversion Hrun; subst. eapply start_stream_never_stops; eassumption.
Qed.


Lemma monitor_stream_never_stops k0 (h : FFmpegProcess) (w : World os) :
  exists h' w' ev,
    monitor_stream k0 (h, w) = (Ok tt, (h', w'), ev) /\
    forall k, ~ In (Call_stop k) ev.
Proof.
  destruct (is_alive_returns os h w) as (b & w1 & Ha). destruct b.
  - exists h, w1, []. split; [now apply monitor_stream_alive|]. intros k [].
  - destruct (Z.lt_ge_cases (restart_count h) (max_restarts h)) as [Hlt|Hge].
    + destruct (monitor_stream_restart k0 _ Ha Hlt)
        as (b & h' & w2 & ev & Hs & _ & Hm & _).
      exists h', w2. eexists. split; [exact Hm|].
      intros k [Hin|Hin]; [discriminate|].
      eapply start_never_stops; eassumption.
    + exists h, w1. eexists.
      split; [apply monitor_stream_exhausted; [exact Ha|lia]|].
      intros k Hin; simpl in Hin; intuition discriminate.
Qed.

Lemma monitor_streams_never_stops (n : nat) :
  forall (l : dict FFmpegProcess) (w : World os),
    exists l' w' ev,
      monitor_streams n (l, w) = (Ok tt, (l', w'), ev) /\
      forall k, ~ In (Call_stop k) ev.
Proof.
  induction n as [|n IH]; intros l w.
  - exists l, w, []. split; [reflexivity|]. intros k [].
  - destruct (for_items_returns (@monitor_stream os)
                (fun _ _ _ ev => forall k, ~ In (Call_stop k) ev)
                monitor_stream_never_stops l w)
      as (l1 & w1 & ev1 & Ht & _ & Hev).
    destruct (IH l1 (os_sleep os 5 w1)) as (l2 & w2 & ev2 & Hr & Hno2).
    exists l2, w2, (ev1 ++ ev2). split.
    + simpl. unfold bind at 1. unfold monitor_tick, for_streams. simpl.
      rewrite Ht. unfold bind at 1. unfold sleep at 1. simpl.
      rewrite Hr. reflexivity.
    + intros k Hin. apply in_app_or in Hin. destruct Hin as [Hin|Hin].
      * destruct (Hev _ Hin) as (k1 & h1 & h1' & ev' & _ & Hno & Hin').
        exact (Hno k Hin').
      * exact (Hno2 k Hin).
Qed.

End EntryPoint.

Section AnyValue.

Variable os : OS.
Variable server : string.

Lemma for_each_declarations (l : list RawStream) (s : MState os) :
  for_each (map Declaration l)
    (fun e =>
       match e with
       | Declaration stream_config => start_stream server stream_config
       | NotAMapping => raise TypeError
       end) s =
  start_all_streams server l s.
Proof.
  unfold start_all_streams. revert s.
  induction l as [|raw l IH]; intros s; simpl; [reflexivity|].
  unfold bind. destruct (start_stream server raw s) as [[[[]|e] s1] ev1];
    [|reflexivity].
  now rewrite IH.
Qed.

Lemma start_all_streams_any_declarations (l : list RawStream) (s : MState os) :
  start_all_streams_any server (Iterable (map Declaration l)) s =
  start_all_streams server l s.
Proof. apply for_each_declarations. Qed.

Lemma entries_split (entries : list entry) :
  (exists l, entries = map Declaration l) \/
  (exists before after,
     entries = map Declaration before ++ NotAMapping :: after).
Proof.
  induction entries as [|[raw|] entries IH].
  - left. now exists [].
  - destruct IH as [(l & ->)|(before & after & ->)].
    + left. now exists (raw :: l).
    + right. now exists (raw :: before), after.
  - right. now exists [], entries.
Qed.

(** Whatever the value under [streams], the run is a run of
    [start_all_streams] over the declarations met, with the same state and
    events; it ends as that run ends if the value is a sequence of
    declarations, and by an exception otherwise. *)
Lemma start_all_streams_any_run (v : streams_value) (s s' : MState os) r ev :
  start_all_streams_any server v s = (r, s', ev) ->
  exists l r0,
    start_all_streams server l s = (r0, s', ev) /\
    ((v = Iterable (map Declaration l) /\ r = r0) \/ exists e, r = Raise e).
Proof.
  destruct v as [entries|].
  - destruct (entries_split entries) as [(l & ->)|(before & after & ->)].
    + rewrite start_all_streams_any_declarations. intros H.
      exists l, r. split; [exact H|]. left. now split.
    + unfold start_all_streams_any.
      rewrite for_each_app, for_each_declarations.
      destruct (start_all_streams server before s) as [[[[]|e] s1] ev1] eqn:Hb.
      * simpl. unfold bind, raise. intros H; inversion H; subst.
        exists before, (Ok tt). rewrite app_nil_r. split; [exact Hb|].
        right. eauto.
      * intros H; inversion H; subst. exists before, (Raise e).
        split; [exact Hb|]. right. eauto.
  - simpl. unfold raise. intros H; inversion H; subst.
    exists [], (Ok tt). split; [reflexivity|]. right. eauto.
Qed.

End AnyValue.

Section Main.

Variable host : Host.

Lemma main_not_loaded (n : nat) (w : World (host_os host)) :
  (forall c,
     fst (host_load_yaml host
            (getenv host "CONFIG_PATH" "/config/streams.yml" w) w)
     <> Ok (Mapping (Some c))) ->
  exists e,
    main host n w =
      (Exited 1,
       ([], snd (host_load_yaml host
                   (getenv host "CONFIG_PATH" "/config/streams.yml" w) w)),
       [Failed_to_load_config_file e]).
Proof.
  unfold main, _load_config. intros Hno.
  destruct (host_load_yaml host
              (getenv host "CONFIG_PATH" "/config/streams.yml" w) w)
    as [[[[c|]|]|e] w1]; simpl in *; eauto.
  now elim (Hno c).
Qed.

Lemma main_loaded (n : nat) (w w1 : World (host_os host)) c :
  host_load_yaml host (getenv host "CONFIG_PATH" "/config/streams.yml" w) w =
    (Ok (Mapping (Some c)), w1) ->
  main host n w =
    match start_all_streams_any
            (getenv host "RTSP_SERVER" "rtsp://mediamtx:8554" w) c ([], w1) with
    | (Ok _, s1, ev1) =>
        match monitor_streams n s1 with
        | (Ok _, s2, ev2) =>
            (Monitoring, s2,
             _setup_signal_handlers ++ map Manager_event (ev1 ++ ev2))
        | (Raise e, s2, ev2) =>
            (Exited 1, s2,
             _setup_signal_handlers ++ map Manager_event (ev1 ++ ev2)
               ++ [Fatal_error e])
        end
    | (Raise e, s1, ev1) =>
        (Exited 1, s1,
         _setup_signal_handlers ++ map Manager_event ev1 ++ [Fatal_error e])
    end.
Proof.
  unfold main, _load_config. intros Hl. rewrite Hl.
  unfold bind.
  destruct (start_all_streams_any
              (getenv host "RTSP_SERVER" "rtsp://mediamtx:8554" w) c ([], w1))
    as [[[[]|e] s1] ev1]; [|reflexivity].
  destruct (monitor_streams n s1) as [[[[]|e] s2] ev2]; reflexivity.
Qed.

End Main.

(** X16.  When the configuration file cannot be read or parsed, or what
    it holds is not a mapping with the key [streams], [main] exits with
    status 1 after one error record: no signal handler is installed, no
    stream is started, and nothing is asked of the system after the
    reading of the file. *)
Theorem main_exits_on_bad_config (host : Host) (n : nat)
  (w : World (host_os host)) :
  (forall c,
     fst (host_load_yaml host
            (getenv host "CONFIG_PATH" "/config/streams.yml" w) w)
     <> Ok (Mapping (Some c))) ->
  exists e,
    main host n w =
      (Exited 1,
       ([], snd (host_load_yaml host
                   (getenv host "CONFIG_PATH" "/config/streams.yml" w) w)),
       [Failed_to_load_config_file e]).
Proof.
  intros Hno. now apply main_not_loaded.
Qed.

Lemma main_exits_on_bad_config_witness :
  exists e,
    main (scripted_host (Ok (Mapping None))) 4 (spawning 1) =
      (Exited 1, ([], spawning 1), [Failed_to_load_config_file e]).
Proof.
  apply (@main_exits_on_bad_config (scripted_host (Ok (Mapping None))) 4
           (spawning 1)).
  intros c. discriminate.
Defined.

(** X17.  Left to itself, [main] never calls [stop]: not while it starts
    the streams, not in any pass of the monitoring loop, and not when it
    gives up.  When it exits on its own the status is 1, and every stream it
    has started and tracked still holds its process: the children are left
    running. *)
Theorem main_never_stops_streams (host : Host) (n : nat)
  (w : World (host_os host)) out s ev :
  main host n w = (out, s, ev) ->
  (forall k, ~ In (Call_stop k) (manager_events ev)) /\
  (forall code,
     out = Exited code ->
     code = 1 /\ Forall (fun kh => has_process (snd kh) = true) (fst s)).
Proof.
  intros Hmain.
  destruct (host_load_yaml host
              (getenv host "CONFIG_PATH" "/config/streams.yml" w) w)
    as [[[[c|]|]|e] w1] eqn:Hl.
  2-4: destruct (@main_not_loaded host n w) as (e0 & He);
    [intros c; unfold getenv in *; rewrite Hl; simpl; discriminate|];
    rewrite He in Hmain; inversion Hmain; subst; simpl;
    (split; [intros k []|]); intros code Hc; inversion Hc; auto.
  rewrite (@main_loaded host n w w1 c Hl) in Hmain.
  set (server := getenv host "RTSP_SERVER" "rtsp://mediamtx:8554" w) in *.
  destruct (start_all_streams_any server c ([], w1)) as [[r1 s1] ev1] eqn:H1.
  destruct (@start_all_streams_any_run (host_os host) server c ([], w1) s1
              r1 ev1 H1) as (l & r0 & Hrun & Hr).
  pose proof (@start_all_streams_never_stops (host_os host) server l
                ([], w1) s1 r0 ev1 Hrun) as Hno1.
  assert (Hinv : started_map server l (fst s1)).
  { eapply start_all_streams_keeps; [apply incl_refl| |exact Hrun].
    simpl. repeat split; constructor. }
  destruct r1 as [[]|e1].
  - destruct s1 as [l1 w1'].
    destruct (@monitor_streams_never_stops (host_os host) n l1 w1')
      as (l2 & w2 & ev2 & H2 & Hno2).
    rewrite H2 in Hmain. inversion Hmain; subst. split.
    + intros k. simpl. rewrite manager_events_map.
      intros Hin. apply in_app_or in Hin. destruct Hin as [Hin|Hin].
      * exact (Hno1 k Hin).
      * exact (Hno2 k Hin).
    + intros code Hc. discriminate.
  - inversion Hmain; subst. split.
    + intros k. simpl.
      rewrite manager_events_app, manager_events_map.
      simpl. rewrite app_nil_r. exact (Hno1 k).
    + intros code Hc. inversion Hc; subst. split; [reflexivity|].
      destruct Hinv as [_ Hreg]. eapply Forall_impl; [|exact Hreg].
      intros [k h] (raw & cfg & p & _ & _ & _ & _ & Hh). simpl in *.
      now rewrite Hh.
Qed.

Lemma main_never_stops_streams_witness :
  exists s ev,
    main (scripted_host
            (Ok (Mapping (Some (Iterable
               [Declaration cam1_raw; Declaration nameless_raw;
                Declaration hls_raw])))))
      4 (spawning 1) = (Exited 1, s, ev) /\
    (forall k, ~ In (Call_stop k) (manager_events ev)) /\
    Forall (fun kh => has_process (snd kh) = true) (fst s) /\
    fst s = [("cam1", running cam1 1)].
Proof.
  eexists. eexists. split; [reflexivity|].
  destruct (@main_never_stops_streams
              (scripted_host
                 (Ok (Mapping (Some (Iterable
                    [Declaration cam1_raw; Declaration nameless_raw;
                     Declaration hls_raw])))))
              4 (spawning 1) _ _ _ eq_refl) as [Hno Hexit].
  split; [exact Hno|]. split; [|reflexivity].
  exact (proj2 (Hexit 1 eq_refl)).
Defined.



(** A value under [streams] that cannot be iterated, or an entry that is
    not a mapping, makes [main] exit with status 1. *)
Remark main_exits_on_null_streams :
  main (scripted_host (Ok (Mapping (Some NotIterable)))) 3 quiet =
    (Exited 1, ([], quiet),
     [Signal_handler_installed SIGTERM; Signal_handler_installed SIGINT;
      Fatal_error TypeError]) /\
  fst (fst (main (scripted_host
                    (Ok (Mapping (Some (Iterable
                       [Declaration cam1_raw; NotAMapping])))))
              3 (spawning 1))) = Exited 1.
Proof. split; reflexivity. Qed.

(** ** The tracking map over the life of the service *)

Section Keys.

Variable os : OS.
Variable server : string.

Lemma start_stream_keys raw (s s' : MState os) r ev :
  start_stream server raw s = (r, s', ev) ->
  incl (keys (fst s)) (keys (fst s')).
Proof.
  destruct s as [streams w]. intros Hrun.
  destruct (parse_stream raw) as [cfg|e] eqn:Hp.
  - destruct (start_returns os (FFmpegProcess_init cfg server) w)
      as (b & h' & w' & ev' & Hs).
    rewrite (@start_stream_parsed os server raw cfg streams w w' b h' ev' Hp Hs)
      in Hrun.
    inversion Hrun; subst; simpl. destruct b; [|apply incl_refl].
    intros k Hk. apply dict_set_keys. now right.
  - destruct (raw_name raw) as [nm|] eqn:Hn.
    + rewrite (@start_stream_malformed os server raw e nm streams w Hp Hn)
        in Hrun.
      inversion Hrun; subst. apply incl_refl.
    + rewrite (@start_stream_nameless os server raw streams w Hn) in Hrun.
      inversion Hrun; subst. apply incl_refl.
Qed.

Lemma start_all_streams_keys (l : list RawStream) :
  forall (s s' : MState os) r ev,
    start_all_streams server l s = (r, s', ev) ->
    incl (keys (fst s)) (keys (fst s')).
Proof.
  unfold start_all_streams.
  induction l as [|raw l IH]; simpl; intros s s' r ev Hrun.
  - inversion Hrun; subst. apply incl_refl.
  - unfold bind in Hrun.
    destruct (start_stream server raw s) as [[r1 s1] ev1] eqn:H1.
    apply start_stream_keys in H1.
    destruct r1 as [[]|e].
    + destruct (for_each l (start_stream server) s1) as [[r2 s2] ev2] eqn:H2.
      inversion Hrun; subst. eapply incl_tran; [exact H1|].
      eapply IH; exact H2.
    + inversion Hrun; subst. exact H1.
Qed.

Lemma monitor_streams_keys (n : nat) :
  forall (s s' : MState os) r ev,
    monitor_streams n s = (r, s', ev) -> keys (fst s') = keys (fst s).
Proof.
  induction n as [|n IH]; simpl; intros s s' r ev Hrun.
  - inversion Hrun; subst. reflexivity.
  - unfold bind at 1 in Hrun.
    destruct (monitor_tick s) as [[r1 [l1 w1]] ev1] eqn:H1.
    assert (Hk1 : keys l1 = keys (fst s)).
    { unfold monitor_tick, for_streams in H1.
      eapply for_items_keys; exact H1. }
    destruct r1 as [[]|e]; [|inversion Hrun; subst; exact Hk1].
    unfold bind at 1 in Hrun. unfold sleep at 1 in Hrun. simpl in Hrun.
    destruct (monitor_streams n (l1, os_sleep os 5 w1))
      as [[r2 s2] ev2] eqn:H2.
    inversion Hrun; subst. apply IH in H2. simpl in H2. congruence.
Qed.

End Keys.

(** X19.  Nothing ever removes a stream from the tracking map.  A name
    tracked before [start_all_streams] (or registered by it on the way) is
    still tracked when it returns or raises; the passes of the monitoring
    loop and [cleanup] leave the keys and their order as they are, so a
    stream that has used up its restarts stays in the map. *)
Theorem streams_are_never_removed (os : OS) (server : string) :
  (forall streams_config (s s' : MState os) r ev,
     start_all_streams server streams_config s = (r, s', ev) ->
     incl (keys (fst s)) (keys (fst s'))) /\
  (forall n (s s' : MState os) r ev,
     monitor_streams n s = (r, s', ev) -> keys (fst s') = keys (fst s)) /\
  (forall (s s' : MState os) r ev,
     cleanup s = (r, s', ev) -> keys (fst s') = keys (fst s)).
Proof.
  split; [|split].
  - intros streams_config s s' r ev. apply start_all_streams_keys.
  - intros n s s' r ev. apply monitor_streams_keys.
  - intros [l w] [l' w'] r ev Hc.
    unfold cleanup, bind, emit, for_streams in Hc; simpl in Hc.
    destruct (for_items (fun _ => @stop os) l w) as [[r0 [l0 w0]] ev0] eqn:Hl.
    inversion Hc; subst. simpl. eapply for_items_keys; exact Hl.
Qed.

Lemma triple_eta {A B C : Type} (x : A * B * C) :
  x = (fst (fst x), snd (fst x), snd x).
Proof. now destruct x as [[a b] c]. Defined.

Lemma streams_are_never_removed_witness :
  incl (keys one_exhausted)
    (keys (fst (snd (fst
       (@start_all_streams scripted mediamtx [hls_raw; nameless_raw]
          (one_exhausted, quiet)))))) /\
  keys (fst (snd (fst (@monitor_streams scripted 7 (one_exhausted, quiet))))) =
    keys one_exhausted /\
  keys (fst (snd (fst (@cleanup scripted (one_exhausted, refusing))))) =
    keys one_exhausted.
Proof.
  destruct (streams_are_never_removed scripted mediamtx) as (Hs & Hm & Hc).
  split; [|split].
  - exact (Hs [hls_raw; nameless_raw] (one_exhausted, quiet) _ _ _
             (triple_eta _)).
  - exact (Hm 7%nat (one_exhausted, quiet) _ _ _ (triple_eta _)).
  - exact (Hc (one_exhausted, refusing) _ _ _ (triple_eta _)).
Defined.

(** ** Giving up, pass after pass *)

Lemma give_ups_app k (a b : list event) :
  give_ups k (a ++ b) = (give_ups k a + give_ups k b)%nat.
Proof.
  induction a as [|e a IH]; simpl; [reflexivity|].
  destruct e as [[] []|n|n]; try exact IH.
  destruct (String.eqb stream k); simpl; now rewrite IH.
Qed.

Lemma parked_absent k (l : dict FFmpegProcess) :
  ~ In k (keys l) -> parked k l = O.
Proof.
  induction l as [|[k0 h0] l IH]; simpl; intros Hk; [reflexivity|].
  destruct (String.eqb_spec k0 k) as [->|Hne]; [tauto|]. simpl. apply IH. tauto.
Qed.

Lemma parked_one k h (l : dict FFmpegProcess) :
  NoDup (keys l) -> In (k, h) l -> max_restarts h <= restart_count h ->
  parked k l = 1%nat.
Proof.
  induction l as [|[k0 h0] l IH]; simpl; intros Hnd Hin Hx; [contradiction|].
  inversion Hnd as [|? ? Hnotin Hnd']; subst. destruct Hin as [Heq|Hin].
  - injection Heq as -> ->. rewrite String.eqb_refl.
    destruct (Z.leb_spec (max_restarts h) (restart_count h)); [|lia].
    simpl. now rewrite parked_absent.
  - destruct (String.eqb_spec k0 k) as [->|Hne].
    + exfalso. apply Hnotin. eapply In_keys; exact Hin.
    + simpl. now apply IH.
Qed.

Section GivingUp.

Variable os : OS.
Hypothesis dead : always_exited os.

Lemma start_gives_no_up (h h' : FFmpegProcess) (w w' : World os) r ev k :
  start (h, w) = (r, (h', w'), ev) -> give_ups k ev = O.
Proof.
  rewrite start_equation; cbv zeta.
  destruct (_build_command (rtsp_server h) (config h)) as [command|e].
  - destruct (os_Popen os command w) as [[p|e] w1];
      intros H; inversion H; reflexivity.
  - intros H; inversion H; reflexivity.
Qed.

Lemma monitor_stream_give_ups k0 (h : FFmpegProcess) (w : World os) :
  exists h' w' ev,
    monitor_stream k0 (h, w) = (Ok tt, (h', w'), ev) /\
    forall k,
      give_ups k ev =
      if String.eqb k0 k && (max_restarts h <=? restart_count h)
      then 1%nat else O.
Proof.
  assert (Ha : exists w1, is_alive (h, w) = (Ok false, (h, w1), [])).
  { rewrite is_alive_equation. destruct (process h) as [p|]; [|eauto].
    pose proof (dead p w) as Hd.
    destruct (os_poll os p w) as [[rc|] w1]; [eauto|].
    simpl in Hd. congruence. }
  destruct Ha as (w1 & Ha).
  destruct (Z.leb_spec (max_restarts h) (restart_count h)) as [Hge|Hlt].
  - exists h, w1. eexists.
    split; [apply monitor_stream_exhausted; [exact Ha|lia]|].
    intros k. simpl. destruct (String.eqb k0 k); reflexivity.
  - destruct (monitor_stream_restart k0 _ Ha Hlt)
      as (b & h' & w2 & ev & Hs & _ & Hm & _).
    exists h', w2. eexists. split; [exact Hm|].
    intros k. rewrite andb_false_r.
    apply start_gives_no_up with (k := k) in Hs. simpl in *. exact Hs.
Qed.

Lemma monitor_tick_give_ups (l : dict FFmpegProcess) :
  forall w : World os,
    exists l' w' ev,
      monitor_tick (l, w) = (Ok tt, (l', w'), ev) /\
      forall k, give_ups k ev = parked k l.
Proof.
  unfold monitor_tick, for_streams; simpl.
  induction l as [|[k0 h] l IH]; intros w; simpl.
  - exists [], w, []. split; [reflexivity|]. intros k. reflexivity.
  - destruct (monitor_stream_give_ups k0 h w) as (h' & w1 & ev1 & Hm & Hg).
    destruct (IH w1) as (l2 & w2 & ev2 & Hl & Hgl).
    rewrite Hm, Hl. exists ((k0, h') :: l2), w2, (ev1 ++ ev2).
    split; [reflexivity|]. intros k.
    rewrite give_ups_app, Hg, Hgl.
    destruct (String.eqb k0 k && (max_restarts h <=? restart_count h));
      reflexivity.
Qed.

End GivingUp.

(** X20.  A stream that has used up its restarts is given up again in
    every pass: as long as its process is found exited, each pass of the
    monitoring loop logs the "failed too many times" error for it once more,
    so [n] passes leave [n] such records. *)
Theorem exhausted_stream_is_reported_every_pass (os : OS) (n : nat)
  (k : string) (h : FFmpegProcess) :
  always_exited os ->
  max_restarts h <= restart_count h ->
  forall (streams : dict FFmpegProcess) (w : World os),
    tracking streams ->
    In (k, h) streams ->
    exists streams' w' ev,
      monitor_streams n (streams, w) = (Ok tt, (streams', w'), ev) /\
      give_ups k ev = n.
Proof.
  intros Hdead Hx. induction n as [|n IH]; intros streams w Htr Hin.
  - exists streams, w, []. split; reflexivity.
  - destruct (@monitor_tick_step os streams w Htr)
      as (l1 & w1 & ev1 & Ht & Htr1 & Hadv & _).
    destruct (@monitor_tick_give_ups os Hdead streams w)
      as (l1' & w1' & ev1' & Ht' & Hg).
    rewrite Ht in Ht'. inversion Ht'; subst l1' w1' ev1'; clear Ht'.
    assert (Hin1 : In (k, h) l1)
      by (eapply Forall2_advance_exhausted; eassumption).
    destruct (IH l1 (os_sleep os 5 w1) Htr1 Hin1) as (l2 & w2 & ev2 & Hr & Hg2).
    exists l2, w2, (ev1 ++ ev2). split.
    + simpl. unfold bind at 1. rewrite Ht.
      unfold bind at 1. unfold sleep at 1. simpl. rewrite Hr. reflexivity.
    + rewrite give_ups_app, Hg, Hg2.
      rewrite (@parked_one k h streams (proj1 Htr) Hin Hx). reflexivity.
Qed.

Lemma exhausted_stream_is_reported_every_pass_witness :
  exists streams' w' ev,
    @monitor_streams patient 4 (one_exhausted, []) =
      (Ok tt, (streams', w'), ev) /\
    give_ups "cam1" ev = 4%nat.
Proof.
  apply (@exhausted_stream_is_reported_every_pass patient 4 "cam1"
           (with_restart_count 5 (running cam1 1)) patient_always_exited).
  - simpl. lia.
  - exact one_exhausted_tracking.
  - left. reflexivity.
Defined.

(** ** Which declarations are registered *)

Lemma ascii_upper_ascii (c : ascii) :
  (nat_of_ascii (ascii_upper c) <? 128)%nat = (nat_of_ascii c <? 128)%nat.
Proof.
  destruct c as [[] [] [] [] [] [] [] []]; reflexivity.
Qed.

Lemma ascii_only_upper (s : string) : ascii_only (upper s) = ascii_only s.
Proof.
  induction s as [|c s IH]; simpl; [reflexivity|].
  now rewrite ascii_upper_ascii, IH.
Qed.

(** A type that upper-cases to the name of a member is ASCII. *)
Lemma well_formed_ascii (raw : RawStream) :
  well_formed raw = true -> ascii_typed raw = true.
Proof.
  unfold well_formed, ascii_typed.
  destruct (raw_name raw); [|discriminate].
  destruct (raw_type raw) as [ty|]; [|discriminate].
  destruct (raw_input raw); [|discriminate].
  destruct (raw_output_path raw); [|discriminate].
  destruct (StreamType_getitem (upper ty)) as [t|e] eqn:Ht; [|discriminate].
  intros _. apply StreamType_getitem_Ok in Ht.
  rewrite <- ascii_only_upper, Ht. now destruct t.
Qed.

Section Registered.

Variable os : OS.
Variable server : string.

Lemma start_stream_get_other k raw (s s' : MState os) r ev :
  not_named k raw = true ->
  start_stream server raw s = (r, s', ev) ->
  dict_get (fst s') k = dict_get (fst s) k.
Proof.
  destruct s as [streams w]. intros Hk Hrun.
  destruct (parse_stream raw) as [cfg|e] eqn:Hp.
  - destruct (start_returns os (FFmpegProcess_init cfg server) w)
      as (b & h' & w' & ev' & Hs).
    rewrite (@start_stream_parsed os server raw cfg streams w w' b h' ev' Hp Hs)
      in Hrun.
    inversion Hrun; subst; simpl. destruct b; [|reflexivity].
    apply dict_set_get_other.
    destruct (@parse_stream_well_formed raw cfg Hp) as [Hn _].
    unfold not_named in Hk. rewrite Hn in Hk.
    destruct (String.eqb_spec (name cfg) k); [discriminate|congruence].
  - destruct (raw_name raw) as [nm|] eqn:Hn.
    + rewrite (@start_stream_malformed os server raw e nm streams w Hp Hn)
        in Hrun.
      now inversion Hrun.
    + rewrite (@start_stream_nameless os server raw streams w Hn) in Hrun.
      now inversion Hrun.
Qed.

Lemma start_all_streams_get_other k (l : list RawStream) :
  forallb (not_named k) l = true ->
  forall (s s' : MState os) r ev,
    start_all_streams server l s = (r, s', ev) ->
    dict_get (fst s') k = dict_get (fst s) k.
Proof.
  unfold start_all_streams.
  induction l as [|raw l IH]; simpl; intros Hall s s' r ev Hrun.
  - now inversion Hrun.
  - apply andb_prop in Hall. destruct Hall as [Hraw Hl].
    unfold bind in Hrun.
    destruct (start_stream server raw s) as [[r1 s1] ev1] eqn:H1.
    apply (start_stream_get_other k raw s Hraw) in H1.
    destruct r1 as [[]|e].
    + destruct (for_each l (start_stream server) s1) as [[r2 s2] ev2] eqn:H2.
      inversion Hrun; subst. rewrite (IH Hl _ _ _ _ H2). exact H1.
    + inversion Hrun; subst. exact H1.
Qed.

(** The run over a list, seen from one of its declarations: the run over
    the declarations before it, its own turn, the run over those after
    it. *)
Lemma start_all_streams_turn (before after : list RawStream) raw
  (s0 s1 s2 s' : MState os) ev1 ev2 r ev :
  start_all_streams server before s0 = (Ok tt, s1, ev1) ->
  start_stream server raw s1 = (Ok tt, s2, ev2) ->
  start_all_streams server (before ++ raw :: after) s0 = (r, s', ev) ->
  exists ev3, start_all_streams server after s2 = (r, s', ev3).
Proof.
  unfold start_all_streams. intros Hb Hraw Hrun.
  rewrite for_each_app, Hb in Hrun. simpl in Hrun. unfold bind in Hrun.
  rewrite Hraw in Hrun.
  destruct (for_each after (start_stream server) s2) as [[r3 s3] ev3].
  inversion Hrun; subst. eauto.
Qed.

End Registered.

(** C1, as the code has it.  [start_all_streams] registers the handle of a
    well-formed declaration when, and only when, its first [start] has
    returned [True].

    - In its turn: a well-formed declaration parses (its type is ASCII);
      if no command can be built for it the tracking map and the world are
      left as they were; if the spawn fails the tracking map is left as it
      was; if the spawn succeeds the handle is filed under the stream's name
      with the new process.  In each case the loop goes on.
    - Over the whole list, for a declaration anywhere in it: if its [start]
      returned [True], its name is tracked when [start_all_streams] is left,
      and leads to that very handle unless a later declaration has the same
      name; if its [start] returned [False], and no other declaration has
      its name, the name is not tracked.
    - When [start_all_streams] is left, the keys of the tracking map are
      unique and every tracked handle belongs to a well-formed declaration
      of the list, is filed under its name, has a zero counter and holds a
      process reference.

    The statements over the list are for declarations whose types are
    ASCII. *)
Theorem start_all_streams_registers_started (os : OS) (server : string) :
  (forall raw (streams : dict FFmpegProcess) (w : World os),
     well_formed raw = true ->
     exists cfg,
       parse_stream raw = Ok cfg /\
       raw_name raw = Some (name cfg) /\
       ascii_typed raw = true /\
       match _build_command server cfg with
       | Raise e =>
           exists ev,
             start_stream server raw (streams, w) = (Ok tt, (streams, w), ev)
       | Ok command =>
           match os_Popen os command w with
           | (Ok p, w') =>
               exists ev,
                 start_stream server raw (streams, w) =
                   (Ok tt,
                    (dict_set streams (name cfg)
                       (with_process (Some p) (FFmpegProcess_init cfg server)),
                     w'),
                    ev)
           | (Raise e, w') =>
               exists ev,
                 start_stream server raw (streams, w) =
                   (Ok tt, (streams, w'), ev)
           end
       end) /\
  (forall before raw after cfg (w0 w1 w2 : World os) s1 ev1 h evs
          r s' w' ev,
     forallb ascii_typed (before ++ raw :: after) = true ->
     start_all_streams server before ([], w0) = (Ok tt, (s1, w1), ev1) ->
     parse_stream raw = Ok cfg ->
     start (FFmpegProcess_init cfg server, w1) = (Ok true, (h, w2), evs) ->
     start_all_streams server (before ++ raw :: after) ([], w0) =
       (r, (s', w'), ev) ->
     In (name cfg) (keys s') /\
     (forallb (not_named (name cfg)) after = true ->
      dict_get s' (name cfg) = Some h)) /\
  (forall before raw after cfg (w0 w1 w2 : World os) s1 ev1 h evs
          r s' w' ev,
     forallb ascii_typed (before ++ raw :: after) = true ->
     start_all_streams server before ([], w0) = (Ok tt, (s1, w1), ev1) ->
     parse_stream raw = Ok cfg ->
     start (FFmpegProcess_init cfg server, w1) = (Ok false, (h, w2), evs) ->
     start_all_streams server (before ++ raw :: after) ([], w0) =
       (r, (s', w'), ev) ->
     forallb (not_named (name cfg)) before = true ->
     forallb (not_named (name cfg)) after = true ->
     dict_get s' (name cfg) = None) /\
  (forall streams_config (w : World os) r streams' w' ev,
     forallb ascii_typed streams_config = true ->
     start_all_streams server streams_config ([], w) = (r, (streams', w'), ev) ->
     tracking streams' /\
     Forall (registered_for server streams_config) streams' /\
     Forall (fun kh => has_process (snd kh) = true) streams').
Proof.
  split; [|split; [|split]].
  - intros raw streams w Hwf.
    destruct (well_formed_parse raw Hwf) as (cfg & Hp & Hsup).
    exists cfg. split; [exact Hp|].
    split; [exact (proj1 (@parse_stream_well_formed raw cfg Hp))|].
    split; [now apply well_formed_ascii|].
    pose proof (start_equation os (FFmpegProcess_init cfg server) w) as Hs.
    cbv zeta in Hs. simpl in Hs.
    destruct (_build_command server cfg) as [command|e].
    + destruct (os_Popen os command w) as [[p|e] w'];
        eexists;
        rewrite (@start_stream_parsed os server raw cfg streams w w' _ _ _
                   Hp Hs);
        reflexivity.
    + eexists.
      rewrite (@start_stream_parsed os server raw cfg streams w w _ _ _ Hp Hs).
      reflexivity.
  - intros before raw after cfg w0 w1 w2 s1 ev1 h evs r s' w' ev
      _ Hb Hp Hs Hrun.
    pose proof (@start_stream_parsed os server raw cfg s1 w1 w2 true h evs
                  Hp Hs) as Hraw.
    simpl in Hraw.
    destruct (@start_all_streams_turn os server before after raw _ _ _ _ _ _
                _ _ Hb Hraw Hrun) as (ev3 & Hafter).
    split.
    + apply (@start_all_streams_keys os server after _ _ _ _ Hafter).
      simpl. apply dict_set_keys. now left.
    + intros Hno.
      pose proof (@start_all_streams_get_other os server (name cfg) after Hno
                    _ _ _ _ Hafter) as Hg.
      simpl in Hg. rewrite Hg. apply dict_set_get.
  - intros before raw after cfg w0 w1 w2 s1 ev1 h evs r s' w' ev
      _ Hb Hp Hs Hrun Hnb Hna.
    pose proof (@start_stream_parsed os server raw cfg s1 w1 w2 false h evs
                  Hp Hs) as Hraw.
    simpl in Hraw.
    destruct (@start_all_streams_turn os server before after raw _ _ _ _ _ _
                _ _ Hb Hraw Hrun) as (ev3 & Hafter).
    pose proof (@start_all_streams_get_other os server (name cfg) after Hna
                  _ _ _ _ Hafter) as Hg.
    pose proof (@start_all_streams_get_other os server (name cfg) before Hnb
                  _ _ _ _ Hb) as Hg0.
    simpl in Hg, Hg0. now rewrite Hg, Hg0.
  - intros streams_config w r streams' w' ev _ Hrun.
    assert (Hinv : started_map server streams_config streams').
    { change streams' with (fst (streams', w')).
      eapply start_all_streams_keeps;
        [apply incl_refl| |exact Hrun].
      simpl. repeat split; constructor. }
    destruct Hinv as (Htr & Hreg).
    split; [exact Htr|]. split; [exact Hreg|].
    eapply Forall_impl; [|exact Hreg].
    intros [k h] (raw & cfg & p & _ & _ & _ & _ & Hh). simpl in *.
    now rewrite Hh.
Qed.

Lemma run_eta {S : Type} {W : Type} {A : Type} (x : A * (S * W) * list event) :
  x = (fst (fst x), (fst (snd (fst x)), snd (snd (fst x))), snd x).
Proof. now destruct x as [[a [s w]] ev]. Defined.

Lemma start_all_streams_registers_started_witness :
  (exists cfg,
     parse_stream cam1_raw = Ok cfg /\
     raw_name cam1_raw = Some (name cfg) /\
     ascii_typed cam1_raw = true /\
     match _build_command mediamtx cfg with
     | Raise e =>
         exists ev,
           @start_stream scripted mediamtx cam1_raw ([], spawning 41) =
             (Ok tt, ([], spawning 41), ev)
     | Ok command =>
         match @os_Popen scripted command (spawning 41) with
         | (Ok p, w') =>
             exists ev,
               @start_stream scripted mediamtx cam1_raw ([], spawning 41) =
                 (Ok tt,
                  (dict_set [] (name cfg)
                     (with_process (Some p) (FFmpegProcess_init cfg mediamtx)),
                   w'),
                  ev)
         | (Raise e, w') =>
             exists ev,
               @start_stream scripted mediamtx cam1_raw ([], spawning 41) =
                 (Ok tt, ([], w'), ev)
         end
     end) /\
  (In "cam2"
     (keys (fst (snd (fst
        (@start_all_streams scripted mediamtx
           ([cam1_raw] ++ cam2_raw :: [hls_raw])
           ([], spawning_two 1 2)))))) /\
   dict_get
     (fst (snd (fst
        (@start_all_streams scripted mediamtx
           ([cam1_raw] ++ cam2_raw :: [hls_raw])
           ([], spawning_two 1 2)))))
     "cam2" = Some (running cam2 2)) /\
  dict_get
    (fst (snd (fst
       (@start_all_streams scripted mediamtx
          ([cam1_raw] ++ cam2_raw :: [hls_raw])
          ([], spawning_then_failing 1)))))
    "cam2" = None /\
  tracking [("cam1", running cam1 41)] /\
  Forall (registered_for mediamtx [cam1_raw]) [("cam1", running cam1 41)] /\
  Forall (fun kh => has_process (snd kh) = true) [("cam1", running cam1 41)].
Proof.
  destruct (start_all_streams_registers_started scripted mediamtx)
    as (Hturn & Hstarted & Hfailed & Hall).
  split; [|split; [|split]].
  - apply (Hturn cam1_raw [] (spawning 41)). reflexivity.
  - destruct (Hstarted [cam1_raw] cam2_raw [hls_raw] cam2
                (spawning_two 1 2) (spawning 2) quiet
                [("cam1", running cam1 1)] _ (running cam2 2) _ _ _ _ _
                eq_refl eq_refl eq_refl eq_refl (run_eta _))
      as [Hin Hget].
    split; [exact Hin|]. apply Hget. reflexivity.
  - apply (Hfailed [cam1_raw] cam2_raw [hls_raw] cam2
             (spawning_then_failing 1)
             (mkScript [Raise (OSError "Resource temporarily unavailable")]
                [] [] [] [])
             quiet
             [("cam1", running cam1 1)] _
             (FFmpegProcess_init cam2 mediamtx) _ _ _ _ _
             eq_refl eq_refl eq_refl eq_refl (run_eta _));
      reflexivity.
  - eapply (Hall [cam1_raw] (spawning 41)); reflexivity.
Defined.
